(** * Chembot: the question-classification and context-ranking pipeline

    A shallow embedding of the deterministic core of the Chembot repository
    ([utils.py], [_search_engine.py], [_bot_engine.py]) and the properties of
    it that the specification states.

    Python strings are sequences of Unicode code points; they are modelled as
    lists of code points ([N]).  The interpreter's Unicode tables that the
    code consults through [str.lower] and the regex class [\w] are not part of
    the repository: they are the two operations of the class [PyUnicode]. *)

From Equations Require Import Equations.
From Stdlib Require Import NArith ZArith Lia String Ascii.
From stdpp Require Import base decidable list gmap sorting.

#[local] Open Scope N_scope.
#[local] Open Scope list_scope.

(** ** Python strings *)

Abbreviation char := N (only parsing).
Abbreviation pystr := (list char) (only parsing).

(** An ASCII literal as a Python string. *)
Definition py (s : string) : pystr :=
  map N_of_ascii (list_ascii_of_string s).

(** [str.isspace] on one character: the code points CPython's
    [Py_UNICODE_ISSPACE] accepts.  [str.split()], [str.strip()] and the regex
    class [\s] all use this set. *)
Definition is_space (c : char) : bool :=
  ((9 <=? c) && (c <=? 13)) || ((28 <=? c) && (c <=? 32))
  || (c =? 133) || (c =? 160) || (c =? 5760)
  || ((8192 <=? c) && (c <=? 8202))
  || (c =? 8232) || (c =? 8233) || (c =? 8239) || (c =? 8287) || (c =? 12288).

Definition SPACE : char := 32.
Definition COLON : char := 58.
Definition NEWLINE : char := 10.

(** [s.startswith(p)] *)
Fixpoint startswith (s p : pystr) {struct p} : bool :=
  match p, s with
  | [], _ => true
  | _ :: _, [] => false
  | a :: p', b :: s' => (a =? b) && startswith s' p'
  end.

(** [w in s] for two strings: substring containment. *)
Fixpoint str_in (w s : pystr) : bool :=
  startswith s w ||
  match s with
  | [] => false
  | _ :: s' => str_in w s'
  end.

(** [s.endswith(p)] *)
Definition endswith (s p : pystr) : bool := startswith (rev s) (rev p).

(** [any(word in text for word in words)] *)
Definition any_in (words : list pystr) (text : pystr) : bool :=
  existsb (fun word => str_in word text) words.

(** One step of a scanner that cuts a string into the maximal runs of
    characters satisfying [keep]: the state is the run in progress at the
    head of the string and the runs completed behind it. *)
Definition push_field (t : pystr) (ts : list pystr) : list pystr :=
  match t with [] => ts | _ :: _ => t :: ts end.

Fixpoint scan_fields (keep : char -> bool) (s : pystr) : pystr * list pystr :=
  match s with
  | [] => ([], [])
  | c :: s' =>
      let '(t, ts) := scan_fields keep s' in
      if keep c then (c :: t, ts) else ([], push_field t ts)
  end.

Definition fields (keep : char -> bool) (s : pystr) : list pystr :=
  let '(t, ts) := scan_fields keep s in push_field t ts.

(** [s.split()]: the maximal runs of non-whitespace characters. *)
Definition split_ws (s : pystr) : list pystr :=
  fields (fun c => negb (is_space c)) s.

(** [sep.join(parts)] *)
Fixpoint join (sep : pystr) (parts : list pystr) : pystr :=
  match parts with
  | [] => []
  | [p] => p
  | p :: ps => p ++ sep ++ join sep ps
  end.

(** [s.split(sep)] for a non-empty separator: the pieces between the
    non-overlapping occurrences of [sep], found from left to right.  [skip]
    counts the characters of an occurrence that are still to be passed. *)
Definition add_head (c : char) (pieces : list pystr) : list pystr :=
  match pieces with
  | [] => [[c]]
  | p :: ps => (c :: p) :: ps
  end.

Fixpoint split_skip (sep : pystr) (skip : nat) (s : pystr) : list pystr :=
  match s with
  | [] => [[]]
  | c :: s' =>
      match skip with
      | S k => split_skip sep k s'
      | O =>
          if startswith s sep then [] :: split_skip sep (length sep - 1) s'
          else add_head c (split_skip sep 0 s')
      end
  end.

Definition split_on (sep s : pystr) : list pystr := split_skip sep 0 s.

(** [s.lstrip()], [s.rstrip()], [s.strip()] *)
Fixpoint lstrip (s : pystr) : pystr :=
  match s with
  | [] => []
  | c :: s' => if is_space c then lstrip s' else s
  end.

Fixpoint rstrip (s : pystr) : pystr :=
  match s with
  | [] => []
  | c :: s' =>
      match rstrip s' with
      | [] => if is_space c then [] else [c]
      | r => c :: r
      end
  end.

Definition strip (s : pystr) : pystr := lstrip (rstrip s).

(** [re.sub(r'\s+', ' ', s)]: every maximal run of whitespace becomes one
    space, written when the run's last character is reached. *)
Fixpoint collapse_ws (s : pystr) : pystr :=
  match s with
  | [] => []
  | c :: s' =>
      if is_space c then
        match s' with
        | c' :: _ => if is_space c' then collapse_ws s' else SPACE :: collapse_ws s'
        | [] => [SPACE]
        end
      else c :: collapse_ws s'
  end.

(** The interpreter's Unicode tables. *)
Class PyUnicode := {
  (** [str.lower] *)
  str_lower : pystr -> pystr;
  (** [str.isalnum] on one character *)
  chr_isalnum : char -> bool
}.

(** ** utils.py *)

Section Utils.
Context {U : PyUnicode}.

(** The regex class [\w]: alphanumeric, or the underscore. *)
Definition is_word (c : char) : bool := chr_isalnum c || (c =? 95).

(** The characters the class names besides [\w] and [\s]:
    ( ) + - = / \ ° ₀..₉ → ← ↔ *)
Definition is_formula_char (c : char) : bool :=
  (c =? 40) || (c =? 41) || (c =? 43) || (c =? 45) || (c =? 61) || (c =? 47)
  || (c =? 92) || (c =? 176) || ((8320 <=? c) && (c <=? 8329))
  || (c =? 8594) || (c =? 8592) || (c =? 8596).

(** A character the negated class [[^\w\s\(\)\+\-=\/\\°₀-₉→←↔]] does NOT
    match. *)
Definition in_keep_class (c : char) : bool :=
  is_word c || is_space c || is_formula_char c.

(** [re.sub(r'[^...]', ' ', s)] *)
Definition sub_special (s : pystr) : pystr :=
  map (fun c => if in_keep_class c then c else SPACE) s.

(** [clean_text]; [None] is Python's [None]. *)
Definition clean_text (text : option pystr) : pystr :=
  match text with
  | None => []
  | Some [] => []
  | Some text =>
      let text := join [SPACE] (split_ws text) in
      let text := sub_special text in
      let text := collapse_ws text in
      strip text
  end.

Definition safety_words : list pystr :=
  [py "safe"; py "hazard"; py "danger"; py "toxic"; py "risk"; py "accident";
   py "emergency"].
Definition calc_words : list pystr :=
  [py "calculate"; py "compute"; py "find"; py "determine"; py "solve";
   py "how much"; py "what is the"].
Definition design_words : list pystr :=
  [py "design"; py "size"; py "select"; py "choose"; py "optimize";
   py "specify"].
Definition theory_words : list pystr :=
  [py "explain"; py "what is"; py "how does"; py "why"; py "difference";
   py "compare"].

Definition categorize_question (question : pystr) : pystr :=
  let question_lower := str_lower question in
  if any_in safety_words question_lower then py "safety"
  else if any_in calc_words question_lower then py "calculation"
  else if any_in design_words question_lower then py "design"
  else if any_in theory_words question_lower then py "theory"
  else py "general".

Definition inappropriate_words : list pystr :=
  [py "spam"; py "test123"; py "asdf"].

Definition validate_input (question : pystr) : bool * pystr :=
  if bool_decide (question = []) || bool_decide (strip question = []) then
    (false, py "Please enter a question.")
  else if (length (strip question) <? 3)%nat then
    (false, py "Please enter a more detailed question.")
  else if (1000 <? length question)%nat then
    (false, py "Question is too long. Please keep it under 1000 characters.")
  else if any_in inappropriate_words (str_lower question) then
    (false, py "Please enter a genuine chemical engineering question.")
  else (true, []).

End Utils.

(** ** _search_engine.py *)

(** A search result is a Python dict with the keys [title], [url],
    [snippet], [source] and [priority]; the code reads it with
    [dict.get(key, default)], so a key may be absent. *)
Record result := mkResult {
  title : option pystr;
  url : option pystr;
  snippet : option pystr;
  source : option pystr;
  priority : option Z
}.

#[global] Instance result_eq_dec : EqDecision result.
Proof. solve_decision. Defined.

(** [result.get('url', '')] and its siblings. *)
Definition get_url (r : result) : pystr := default [] (url r).
Definition get_snippet (r : result) : pystr := default [] (snippet r).
Definition get_source (r : result) : pystr := default (py "Web") (source r).
Definition get_priority (r : result) : Z := default 0%Z (priority r).

(** What one GET of the summary endpoint can do: raise, or answer with a
    status code and a body; [None] as body is a body [response.json()]
    raises on, or one whose [content_urls] chain is not made of dicts. *)
Record summary := mkSummary {
  sm_title : option pystr;
  sm_page : option pystr;
  sm_extract : option pystr
}.

Inductive http_outcome :=
| HttpRaises
| HttpStatus (status_code : Z) (body : option summary).

(** The network, as one ask sees it. *)
Class Web := { session_get : pystr -> http_outcome }.

(** [sorted(l, key=key, reverse=True)]: a stable sort, larger keys first.
    An element is inserted in front of the first element whose key is not
    larger than its own, so equal keys keep their order. *)
Fixpoint insert_desc {A} (key : A -> Z) (x : A) (l : list A) : list A :=
  match l with
  | [] => [x]
  | y :: l' => if (key x <? key y)%Z then y :: insert_desc key x l' else x :: l
  end.

Fixpoint sorted_desc {A} (key : A -> Z) (l : list A) : list A :=
  match l with
  | [] => []
  | x :: l' => insert_desc key x (sorted_desc key l')
  end.

(** [s.replace(' ', '_')] *)
Definition replace_space_underscore (s : pystr) : pystr :=
  map (fun c => if c =? SPACE then 95 else c) s.

Section SearchEngine.
Context {U : PyUnicode} {W : Web}.

Definition max_results : nat := 5.

(** The loop of [_deduplicate_results], with its two variables. *)
Fixpoint dedup_loop (results : list result) (seen_urls : gset pystr)
    (unique_results : list result) : list result :=
  match results with
  | [] => unique_results
  | r :: results' =>
      let url := get_url r in
      if negb (bool_decide (url = [])) && negb (bool_decide (url ∈ seen_urls))
      then dedup_loop results' ({[url]} ∪ seen_urls) (unique_results ++ [r])
      else dedup_loop results' seen_urls unique_results
  end.

Definition _deduplicate_results (results : list result) : list result :=
  let unique_results := dedup_loop results ∅ [] in
  sorted_desc get_priority unique_results.

Definition wiki_api : pystr :=
  py "https://en.wikipedia.org/api/rest_v1/page/summary/".

(** The loop over [search_terms[:2]]: the first term answered with status
    200 and a readable body gives the one result. *)
Fixpoint wikipedia_loop (terms : list pystr) : list result :=
  match terms with
  | [] => []
  | term :: terms' =>
      match session_get (wiki_api ++ term) with
      | HttpStatus 200 (Some data) =>
          [ {| title := Some (default [] (sm_title data));
               url := Some (default [] (sm_page data));
               snippet := Some (default [] (sm_extract data));
               source := Some (py "Wikipedia");
               priority := Some 8%Z |} ]
      | _ => wikipedia_loop terms'
      end
  end.

Definition _search_wikipedia (query : pystr) : list result :=
  let search_terms :=
    [ replace_space_underscore query;
      py "Chemical_" ++ replace_space_underscore query;
      replace_space_underscore query ++ py "_engineering" ] in
  wikipedia_loop (take 2 search_terms).

(** The same loop and the same function with the requests they send through
    [self.session.get] written down, in order, beside the results. *)
Fixpoint wikipedia_loop_requests (terms : list pystr)
    : list result * list pystr :=
  match terms with
  | [] => ([], [])
  | term :: terms' =>
      let request := wiki_api ++ term in
      match session_get request with
      | HttpStatus 200 (Some data) =>
          ([ {| title := Some (default [] (sm_title data));
                url := Some (default [] (sm_page data));
                snippet := Some (default [] (sm_extract data));
                source := Some (py "Wikipedia");
                priority := Some 8%Z |} ], [request])
      | _ =>
          let '(results, requests) := wikipedia_loop_requests terms' in
          (results, request :: requests)
      end
  end.

Definition _search_wikipedia_requests (query : pystr)
    : list result * list pystr :=
  let search_terms :=
    [ replace_space_underscore query;
      py "Chemical_" ++ replace_space_underscore query;
      replace_space_underscore query ++ py "_engineering" ] in
  wikipedia_loop_requests (take 2 search_terms).

(** The built-in table, in the dict's insertion order. *)
Definition educational_content : list (pystr * result) :=
  [ (py "distillation",
     {| title := Some (py "Distillation - Chemical Engineering");
        url := Some (py "https://en.wikipedia.org/wiki/Distillation");
        snippet := Some (py "Distillation is a separation process that exploits differences in volatility of components in a liquid mixture.");
        source := Some (py "Educational");
        priority := Some 7%Z |});
    (py "reactor",
     {| title := Some (py "Chemical Reactor Design");
        url := Some (py "https://en.wikipedia.org/wiki/Chemical_reactor");
        snippet := Some (py "A chemical reactor is an enclosed volume in which a chemical reaction takes place.");
        source := Some (py "Educational");
        priority := Some 7%Z |});
    (py "heat exchanger",
     {| title := Some (py "Heat Exchanger Design");
        url := Some (py "https://en.wikipedia.org/wiki/Heat_exchanger");
        snippet := Some (py "A heat exchanger is a system used to transfer heat between two or more fluids.");
        source := Some (py "Educational");
        priority := Some 7%Z |}) ].

Definition _search_educational_sites (query : pystr) : list result :=
  let query_lower := str_lower query in
  map snd (filter (fun tc => str_in (fst tc) query_lower = true) educational_content).

(** [_scrape_search_results] after the providers have answered. *)
Definition scrape_sources (sources : list (list result)) : list result :=
  let results := concat sources in
  let unique_results := _deduplicate_results results in
  take max_results unique_results.

Definition _scrape_search_results (query : pystr) : list result :=
  scrape_sources [_search_wikipedia query; _search_educational_sites query].

Definition search_web (query : pystr) : list result :=
  let enhanced_query := query ++ py " chemical engineering" in
  _scrape_search_results enhanced_query.

(** The lines [get_relevant_context] builds from the search results. *)
Definition render_result (r : result) : pystr :=
  py "From " ++ get_source r ++ py ": " ++ get_snippet r.

Definition context_parts (search_results : list result) : list pystr :=
  map render_result
    (filter (fun r => get_snippet r <> []) (take 3 search_results)).

Definition render_context (search_results : list result) : pystr :=
  match search_results with
  | [] => []
  | _ => join [NEWLINE; NEWLINE] (context_parts search_results)
  end.

Definition get_relevant_context (query : pystr) : pystr :=
  render_context (search_web query).

End SearchEngine.

(** ** _bot_engine.py: source extraction *)

(** The text before the first colon, and the rest from that colon on. *)
Fixpoint until_colon (s : pystr) : pystr * pystr :=
  match s with
  | [] => ([], [])
  | c :: s' =>
      if c =? COLON then ([], s)
      else let '(a, b) := until_colon s' in (c :: a, b)
  end.

(** [s] without its prefix [p], when it starts with [p]. *)
Fixpoint strip_prefix (p s : pystr) {struct p} : option pystr :=
  match p, s with
  | [], _ => Some s
  | _ :: _, [] => None
  | a :: p', b :: s' => if a =? b then strip_prefix p' s' else None
  end.

(** A match of [From ([^:]+):] at the head of [s]: the group and the text
    after the match.  The greedy class takes everything up to the next colon;
    giving characters back cannot help, since the character after a shorter
    group is not a colon. *)
Definition match_source_pattern (s : pystr) : option (pystr * pystr) :=
  match strip_prefix (py "From ") s with
  | None => None
  | Some s1 =>
      match until_colon s1 with
      | (c :: label, _ :: rest) => Some (c :: label, rest)
      | _ => None
      end
  end.

(** A value together with the equation that names it. *)
Definition inspect {A} (x : A) : {y : A | x = y} := exist _ x eq_refl.

(** [re.findall(r'From ([^:]+):', s)]: the groups of the non-overlapping
    matches, found from left to right. *)
Equations? findall_sources (s : pystr) : list pystr by wf (length s) lt :=
  findall_sources [] := [];
  findall_sources (c :: s') with inspect (match_source_pattern (c :: s')) := {
    | exist _ (Some (label, rest)) Hm => label :: findall_sources rest;
    | exist _ None _ => findall_sources s' }.
Proof.
  - (* a match ends behind a colon of the string *)
    assert (Hp : forall p s s1 : pystr,
      strip_prefix p s = Some s1 -> (length s1 <= length s)%nat).
    { clear. induction p as [|a p IH]; intros [|b s] s1 H; simpl in H;
        try (by simplify_eq).
      destruct (a =? b); [|done]. apply IH in H. simpl. lia. }
    assert (Hu : forall s : pystr, (length (until_colon s).2 <= length s)%nat).
    { clear. induction s as [|c s IH]; simpl; [lia|].
      destruct (c =? COLON); simpl; [lia|].
      destruct (until_colon s); simpl in *; lia. }
    unfold match_source_pattern in Hm.
    destruct (strip_prefix _ (c :: s')) as [s1|] eqn:E; [|done].
    apply Hp in E. specialize (Hu s1).
    destruct (until_colon s1) as [[|x l] [|d r]]; simplify_eq.
    simpl in *. lia.
  - simpl. lia.
Qed.

(** [list(set(sources))]: the order of the list is the set's own. *)
Definition _extract_sources_from_context (web_context : pystr) : list pystr :=
  let matches := findall_sources web_context in
  let sources := map strip matches in
  elements (list_to_set sources : gset pystr).

(** ** prompts.py *)

Definition SYSTEM_PROMPT : pystr := py "
You are an expert Chemical Engineering assistant designed to help chemical engineering students and professionals.

Your expertise includes:
- Process design and optimization
- Unit operations (distillation, absorption, extraction, etc.)
- Reaction engineering and kinetics
- Transport phenomena (heat, mass, and momentum transfer)
- Thermodynamics and phase equilibria
- Process safety and HAZOP analysis
- Equipment design and selection
- Process control and instrumentation

Guidelines for responses:
1. Always prioritize safety considerations
2. Provide clear, step-by-step explanations
3. Include relevant equations when applicable
4. Mention real-world applications
5. Use proper chemical engineering terminology
6. Cite reliable sources when possible
7. For calculations, show units and assumptions
".

(** The dict [QUESTION_TYPES], in insertion order. *)
Definition QUESTION_TYPES : list (pystr * pystr) :=
  [
    (py "calculation", py "
    This is a calculation question. Please:
    1. Identify the given parameters and what needs to be calculated
    2. State relevant equations and principles
    3. Show step-by-step solution with units
    4. Verify the reasonableness of the result
    5. Mention any assumptions made
    ");
    (py "theory", py "
    This is a theoretical question. Please:
    1. Provide clear conceptual explanation
    2. Include fundamental principles
    3. Give practical examples or applications
    4. Explain the significance in chemical engineering
    5. Mention related concepts
    ");
    (py "safety", py "
    This is a safety-related question. Please:
    1. Prioritize safety information
    2. Mention relevant safety standards and regulations
    3. Include hazard identification and risk assessment
    4. Provide emergency procedures if applicable
    5. Cite authoritative safety sources
    ");
    (py "design", py "
    This is a design question. Please:
    1. Outline the design approach and methodology
    2. Identify key design parameters and constraints
    3. Suggest appropriate equipment or process configuration
    4. Consider economic and safety factors
    5. Mention industry standards and best practices
    ") ].

Definition RESPONSE_FORMAT : pystr := py "
Structure your response as follows:

**Overview:** Brief summary of the topic/answer

**Detailed Explanation:** 
- Key concepts and principles
- Step-by-step analysis (if applicable)
- Relevant equations and calculations

**Safety Considerations:** (if applicable)
- Hazards and risks
- Safety measures and precautions

**Practical Applications:**
- Real-world examples
- Industry relevance

**Additional Resources:** (if applicable)
- Relevant standards or references
- Further reading suggestions
".
(** [dict.get]-style lookup in an insertion-ordered dict. *)
Fixpoint dict_lookup {V} (k : pystr) (d : list (pystr * V)) : option V :=
  match d with
  | [] => None
  | (k', v) :: d' => if bool_decide (k = k') then Some v else dict_lookup k d'
  end.

Definition get_chemE_prompt (question question_type search_context : pystr) : pystr :=
  let prompt := SYSTEM_PROMPT ++ [NEWLINE; NEWLINE] in
  let prompt :=
    match dict_lookup question_type QUESTION_TYPES with
    | Some instructions => prompt ++ instructions ++ [NEWLINE; NEWLINE]
    | None => prompt
    end in
  let prompt := prompt ++ RESPONSE_FORMAT ++ [NEWLINE; NEWLINE] in
  let prompt :=
    match search_context with
    | [] => prompt
    | _ => prompt ++ py "**Additional Context from Current Sources:**" ++ [NEWLINE]
             ++ search_context ++ [NEWLINE; NEWLINE]
    end in
  let prompt := prompt ++ py "**Student Question:** " ++ question ++ [NEWLINE; NEWLINE] in
  prompt ++ py "**Your Response:**".

(** ** utils.py: display formatting and the interaction log *)

(** The body of the loop over [sections]: [None] for a section the loop
    skips. *)
Definition format_section (section : pystr) : option pystr :=
  let section := strip section in
  match section with
  | [] => None
  | _ =>
      let section :=
        if startswith section (py "**") && endswith section (py "**")
        then [NEWLINE] ++ py "### "
               ++ take (length section - 4) (drop 2 section) ++ [NEWLINE]
        else section in
      let lines := split_on [NEWLINE] section in
      let formatted_lines := map strip lines in
      Some (join [NEWLINE] formatted_lines)
  end.

Definition format_response_for_display (response : pystr) : pystr :=
  match response with
  | [] => py "No response generated."
  | _ =>
      let sections := split_on [NEWLINE; NEWLINE] response in
      let formatted_sections := omap format_section sections in
      join [NEWLINE; NEWLINE] formatted_sections
  end.

(** An entry of [st.session_state.interaction_log]. *)
Record log_entry := mkLogEntry {
  log_question : pystr;
  log_response_length : nat;
  log_sources_count : nat;
  log_timestamp : pystr
}.

(** The two keys of Streamlit's session state the code touches; [None] is
    an absent key.  [current_time] holds [str(...)] of the stored value. *)
Record session_state := mkSession {
  interaction_log : option (list log_entry);
  current_time : option pystr
}.

Definition log_interaction (question response : pystr) (sources : list pystr)
    (st : session_state) : session_state :=
  let log := default [] (interaction_log st) in
  let log_entry :=
    {| log_question := take 100 question;
       log_response_length := length response;
       log_sources_count := length sources;
       log_timestamp := default (py "unknown") (current_time st) |} in
  let log := log ++ [log_entry] in
  let log := if (50 <? length log)%nat then drop (length log - 50) log else log in
  {| interaction_log := Some log; current_time := current_time st |}.

(** ** _bot_engine.py: the ask pipeline *)

(** An entry of [conversation_history]. *)
Record turn := mkTurn {
  turn_question : pystr;
  turn_answer : pystr;
  turn_question_type : pystr;
  turn_sources : list pystr;
  turn_timestamp : Z
}.

(** The dict [ask] returns; the last two keys are present on some paths
    only.  Clock readings are kept as integers: the code only subtracts
    them. *)
Record response := mkResponse {
  answer : pystr;
  sources : list pystr;
  question_type : pystr;
  processing_time : Z;
  web_context_used : option bool;
  error : option pystr
}.

(** What [ask] does to its collaborators, in order. *)
Inductive call :=
| CallTime
| CallCategorize (question : pystr)
| CallSearch (query : pystr)
| CallGenerate (prompt : pystr)
| CallLog
| CallAppendHistory.

(** The bot object, the Streamlit session and the record of the calls made
    so far.  [__init__] sets the attribute [conversation_history] only when
    the configuration goes through, so a bot may be without it: [None]. *)
Record world := mkWorld {
  is_initialized : bool;
  conversation_history : option (list turn);
  session : session_state;
  clock_reads : nat;
  calls : list call
}.

(** The completion service and the clock. *)
Class Services := {
  (** [model.generate_content(prompt, ...).text]: the text, or the message
      of the exception raised. *)
  generate_content : pystr -> pystr + pystr;
  (** the n-th reading of [time.time()] *)
  time_time : nat -> Z
}.

(** Computations that change the world and may raise; [inl] carries the
    message of the exception. *)
Definition M (A : Type) : Type := world -> (pystr + A) * world.

#[global] Instance M_ret : MRet M := fun A (a : A) w => (inr a, w).

#[global] Instance M_bind : MBind M := fun A B (k : A -> M B) (m : M A) w =>
  match m w with
  | (inl e, w') => (inl e, w')
  | (inr a, w') => k a w'
  end.

(** A step that cannot raise. *)
Definition lift {A} (f : world -> A * world) : M A :=
  fun w => let '(a, w') := f w in (inr a, w').

(** [str(e)] of the [AttributeError] that reading [self.conversation_history]
    raises on a bot without the attribute. *)
Definition attribute_error : pystr :=
  py "'ChemEBot' object has no attribute 'conversation_history'".

(** [self.conversation_history] *)
Definition load_history : M (list turn) :=
  fun w =>
    match conversation_history w with
    | Some history => (inr history, w)
    | None => (inl attribute_error, w)
    end.

(** [ChemEBot.__init__]: a new bot in the world of the old one.
    [configured] tells whether [genai.configure] and the construction of the
    model went through; when they did not, the exception is shown with
    [st.error] and only [is_initialized] is set. *)
Definition init (configured : bool) (w : world) : world :=
  if configured then
    {| is_initialized := true;
       conversation_history := Some [];
       session := session w;
       clock_reads := clock_reads w;
       calls := calls w |}
  else
    {| is_initialized := false;
       conversation_history := None;
       session := session w;
       clock_reads := clock_reads w;
       calls := calls w |}.

Definition record_call (c : call) (w : world) : unit * world :=
  (tt,
   {| is_initialized := is_initialized w;
      conversation_history := conversation_history w;
      session := session w;
      clock_reads := clock_reads w;
      calls := calls w ++ [c] |}).

Section Bot.
Context {U : PyUnicode} {W : Web} {S : Services}.

(** [time.time()] *)
Definition now (w : world) : Z * world :=
  (time_time (clock_reads w),
   {| is_initialized := is_initialized w;
      conversation_history := conversation_history w;
      session := session w;
      clock_reads := Datatypes.S (clock_reads w);
      calls := calls w ++ [CallTime] |}).

(** [_generate_ai_response] recovers from every failure of the completion
    service itself. *)
Definition _generate_ai_response (question question_type web_context : pystr)
    (w : world) : pystr * world :=
  if negb (is_initialized w) then
    (py "Sorry, the AI system is not properly initialized. Please check the API configuration.", w)
  else
    let prompt := get_chemE_prompt question question_type web_context in
    let '(_, w') := record_call (CallGenerate prompt) w in
    (match generate_content prompt with
     | inr [] =>
         py "I apologize, but I couldn't generate a response to your question. Please try rephrasing it or asking a different question."
     | inr text => text
     | inl e =>
         py "I encountered an error while generating the response: "
           ++ e ++ py ". Please try again."
     end, w').

Definition do_log_interaction (question response : pystr) (sources : list pystr)
    (w : world) : unit * world :=
  (tt,
   {| is_initialized := is_initialized w;
      conversation_history := conversation_history w;
      session := log_interaction question response sources (session w);
      clock_reads := clock_reads w;
      calls := calls w ++ [CallLog] |}).

(** [history.append(t)] on the list [self.conversation_history] gave. *)
Definition append_history (history : list turn) (t : turn) (w : world)
    : unit * world :=
  (tt,
   {| is_initialized := is_initialized w;
      conversation_history := Some (history ++ [t]);
      session := session w;
      clock_reads := clock_reads w;
      calls := calls w ++ [CallAppendHistory] |}).

(** The body of the [try] block of [ask].  In the last statement the
    attribute [self.conversation_history] is read before the dict, and with it
    the clock, is evaluated. *)
Definition ask_body (question : pystr) (include_web_search : bool) (start_time : Z) : M response :=
  lift (record_call (CallCategorize question));;
  let question_type := categorize_question question in
  web_context ←
    (if include_web_search
     then lift (record_call (CallSearch question));; mret (get_relevant_context question)
     else mret []);
  let sources :=
    match web_context with
    | [] => []
    | _ => _extract_sources_from_context web_context
    end in
  ai_response ← lift (_generate_ai_response question question_type web_context);
  let formatted_response := format_response_for_display ai_response in
  t1 ← lift now;
  let processing_time := (t1 - start_time)%Z in
  lift (do_log_interaction question ai_response sources);;
  history ← load_history;
  timestamp ← lift now;
  lift (append_history history
    {| turn_question := question;
       turn_answer := formatted_response;
       turn_question_type := question_type;
       turn_sources := sources;
       turn_timestamp := timestamp |});;
  mret {| answer := formatted_response;
          sources := sources;
          question_type := question_type;
          processing_time := processing_time;
          web_context_used := Some (negb (bool_decide (web_context = [])));
          error := None |}.

Definition ask (question : pystr) (include_web_search : bool) (w : world) : response * world :=
  let '(is_valid, error_message) := validate_input question in
  if negb is_valid then
    ({| answer := error_message;
        sources := [];
        question_type := py "error";
        processing_time := 0;
        web_context_used := None;
        error := None |}, w)
  else
    let '(start_time, w0) := now w in
    match ask_body question include_web_search start_time w0 with
    | (inr r, w1) => (r, w1)
    | (inl e, w1) =>
        let error_response :=
          py "I apologize, but I encountered an error while processing your question: " ++ e in
        let '(t1, w2) := now w1 in
        ({| answer := error_response;
            sources := [];
            question_type := py "error";
            processing_time := (t1 - start_time)%Z;
            web_context_used := None;
            error := Some e |}, w2)
    end.

End Bot.

(** ** utils.py: source priority *)

Section SourcePriority.
Context {U : PyUnicode}.

Definition professional_orgs : list pystr :=
  [py "aiche.org"; py "acs.org"; py "asme.org"; py "api.org"].

Definition get_source_priority_score (url : pystr) : Z :=
  let url_lower := str_lower url in
  if str_in (py ".edu") url_lower then 10
  else if str_in (py ".gov") url_lower then 9
  else if any_in professional_orgs url_lower then 8
  else if str_in (py "wikipedia") url_lower then 6
  else 5.

End SourcePriority.

(** ** _search_engine.py: page content *)

(** What fetching a page and reading its text through the HTML parser can
    do: [None] stands for any exception (a failed request, an error status),
    [Some text] for [soup.get_text()] after the script, style, nav, footer and
    header elements are removed. *)
Class Pages := { page_text : pystr -> option pystr }.

Section PageContent.
Context {U : PyUnicode} {P : Pages}.

Definition extract_content_from_url (url : pystr) : pystr :=
  match page_text url with
  | None => []
  | Some text =>
      let cleaned_text := clean_text (Some text) in
      if (1000 <? length cleaned_text)%nat
      then take 1000 cleaned_text ++ py "..."
      else cleaned_text
  end.

End PageContent.

(** ** prompts.py: keyword lists *)

Definition SAFETY_KEYWORDS : list pystr :=
  [py "hazard"; py "safety"; py "toxic"; py "flammable"; py "explosive";
   py "corrosive"; py "emergency"; py "accident"; py "risk"; py "danger";
   py "protective"; py "ventilation"; py "exposure"; py "leak"; py "spill";
   py "fire"; py "explosion"; py "chemical burn"; py "inhalation";
   py "ingestion"; py "skin contact"; py "eye contact"; py "msds"; py "sds";
   py "osha"; py "niosh"; py "hazop"; py "pha"; py "risk assessment" ].

Definition CHEME_TERMS : list pystr :=
  [py "reactor"; py "distillation"; py "absorption"; py "extraction";
   py "crystallization"; py "filtration"; py "separation";
   py "heat exchanger"; py "pump"; py "compressor"; py "turbine"; py "boiler";
   py "condenser"; py "evaporator"; py "mixer"; py "settler"; py "centrifuge";
   py "dryer"; py "crusher"; py "mill"; py "pipeline"; py "valve";
   py "control"; py "instrumentation"; py "pid"; py "feedback";
   py "feedforward" ].

(** ** _bot_engine.py: the other methods of the bot *)

(** The dict [get_statistics] returns; which of the last two keys is present
    depends on the path. *)
Record statistics := mkStatistics {
  total_questions : nat;
  question_types : gmap pystr nat;
  average_response_time : option Z;
  recent_questions : option nat
}.

(** The loop of [get_statistics] over the history:
    [question_types[q_type] = question_types.get(q_type, 0) + 1]. *)
Fixpoint count_question_types (history : list turn)
    (question_types : gmap pystr nat) : gmap pystr nat :=
  match history with
  | [] => question_types
  | conv :: history' =>
      let q_type := turn_question_type conv in
      count_question_types history'
        (<[q_type := (default 0 (question_types !! q_type) + 1)%nat]> question_types)
  end.

(** The dict [topic_suggestions], in insertion order. *)
Definition topic_suggestions : list (pystr * list pystr) :=
  [ (py "distillation",
     [py "McCabe-Thiele method"; py "Raoult's law"; py "VLE diagrams";
      py "Packed columns"]);
    (py "reactor",
     [py "CSTR design"; py "PFR design"; py "Reaction kinetics";
      py "Reactor sizing"]);
    (py "heat exchanger",
     [py "LMTD method"; py "Heat transfer coefficients";
      py "Shell and tube design"]);
    (py "safety",
     [py "HAZOP analysis"; py "Risk assessment"; py "Safety systems";
      py "Emergency procedures"]);
    (py "thermodynamics",
     [py "Phase equilibria"; py "Gibbs free energy";
      py "Enthalpy calculations"]) ].

(** The loop of [suggest_related_topics] over the items of the dict. *)
Fixpoint suggest_loop (items : list (pystr * list pystr))
    (question_lower : pystr) (suggestions : list pystr) : list pystr :=
  match items with
  | [] => suggestions
  | (topic, related) :: items' =>
      if str_in topic question_lower
      then suggest_loop items' question_lower (suggestions ++ take 2 related)
      else suggest_loop items' question_lower suggestions
  end.

Section BotMethods.
Context {U : PyUnicode} {S : Services}.

Definition get_conversation_history : M (list turn) := load_history.

Definition clear_history (w : world) : world :=
  {| is_initialized := is_initialized w;
     conversation_history := Some [];
     session := session w;
     clock_reads := clock_reads w;
     calls := calls w |}.

(** The list comprehension of [get_statistics]: the clock is read once for
    each turn; 3600 is one hour in the clock's unit. *)
Fixpoint count_recent (history : list turn) (w : world) : nat * world :=
  match history with
  | [] => (0%nat, w)
  | c :: history' =>
      let '(t, w1) := now w in
      let '(n, w2) := count_recent history' w1 in
      (if (t - turn_timestamp c <? 3600)%Z then Datatypes.S n else n, w2)
  end.

(** [get_statistics] has no [try]: on a bot without the attribute the
    [AttributeError] of its first line reaches the caller. *)
Definition get_statistics : M statistics :=
  history ← load_history;
  match history with
  | [] =>
      mret {| total_questions := 0;
              question_types := ∅;
              average_response_time := Some 0%Z;
              recent_questions := None |}
  | _ =>
      let question_types := count_question_types history ∅ in
      recent ← lift (count_recent history);
      mret {| total_questions := length history;
              question_types := question_types;
              average_response_time := None;
              recent_questions := Some recent |}
  end.

Definition is_safety_related (question : pystr) : bool :=
  let question_lower := str_lower question in
  any_in SAFETY_KEYWORDS question_lower.

Definition is_cheme_related (question : pystr) : bool :=
  let question_lower := str_lower question in
  any_in CHEME_TERMS question_lower.

Definition suggest_related_topics (question : pystr) : list pystr :=
  let question_lower := str_lower question in
  let suggestions := suggest_loop topic_suggestions question_lower [] in
  take 3 suggestions.

End BotMethods.

(** ** The interpreter's tables on ASCII text

    [str.lower] and [str.isalnum] as CPython computes them on strings of
    ASCII characters; used to evaluate the code on concrete inputs. *)

Definition ascii_lower_char (c : char) : char :=
  if (65 <=? c) && (c <=? 90) then c + 32 else c.

Definition ascii_isalnum (c : char) : bool :=
  ((48 <=? c) && (c <=? 57)) || ((65 <=? c) && (c <=? 90))
  || ((97 <=? c) && (c <=? 122)).

Definition ascii_tables : PyUnicode :=
  {| str_lower := map ascii_lower_char; chr_isalnum := ascii_isalnum |}.

(** A network on which every request raises. *)
Definition offline : Web := {| session_get := fun _ => HttpRaises |}.

(** * Specification vocabulary *)

(** [w] occurs in [s]. *)
Definition substring (w s : pystr) : Prop := exists a b, s = a ++ w ++ b.

(** Some word of [words] occurs in [text]. *)
Definition mentions (words : list pystr) (text : pystr) : Prop :=
  exists w, w ∈ words /\ substring w text.

(** Larger keys first. *)
Definition desc {A} (key : A -> Z) (a b : A) : Prop := (key b <= key a)%Z.

(** [r] stands in [results] with a non-empty url that no earlier result
    carries. *)
Definition first_seen (results : list result) (r : result) : Prop :=
  exists l1 l2,
    results = l1 ++ r :: l2 /\ get_url r <> [] /\ (get_url r ∉ get_url <$> l1).

(** The candidate [{url: u, priority: p}]. *)
Definition candidate (u : string) (p : Z) : result :=
  {| title := None; url := Some (py u); snippet := None; source := None;
     priority := Some p |}.

(** A synthetic candidate with a snippet; its url is its name. *)
Definition synthetic (u : string) (p : Z) : result :=
  {| title := Some (py u); url := Some (py u); snippet := Some (py u);
     source := Some (py "Test"); priority := Some p |}.

(** Ten candidates from two providers. *)
Definition ten_candidates : list (list result) :=
  [ [synthetic "a" 1; synthetic "b" 9; synthetic "c" 3; synthetic "d" 4;
     synthetic "e" 5; synthetic "f" 6; synthetic "g" 7];
    [synthetic "h" 8; synthetic "i" 2; synthetic "j" 10] ].

(** The pieces of a joined string after the first, each behind its space. *)
Definition sepcat (ts : list pystr) : pystr := concat (map (cons SPACE) ts).

(** Not whitespace. *)
Definition non_space (c : char) : bool := negb (is_space c).

(** [ts] are the maximal runs of [P] characters of [s], from left to right:
    each run is not empty, stands behind characters that fail [P], and ends
    at the end of the string or before a character that fails [P]. *)
Inductive maximal_runs (P : char -> bool) : pystr -> list pystr -> Prop :=
| mr_none s :
    Forall (fun c => P c = false) s -> maximal_runs P s []
| mr_run pre t rest ts :
    Forall (fun c => P c = false) pre ->
    t <> [] -> Forall (fun c => P c = true) t ->
    match rest with [] => True | c :: _ => P c = false end ->
    maximal_runs P rest ts ->
    maximal_runs P (pre ++ t ++ rest) (t :: ts).

(** What survives [clean_text]: a character that is not whitespace and that
    the regex class keeps. *)
Definition kept {U : PyUnicode} (c : char) : bool :=
  negb (is_space c) && (is_word c || is_formula_char c).

(** The allow-list as the specification words it: letters, digits, space,
    parentheses, + - = / \, the degree sign, subscript digits and arrows. *)
Definition spec_allow_list {U : PyUnicode} (c : char) : bool :=
  chr_isalnum c || (c =? SPACE) || is_formula_char c.

(** An ASCII character. *)
Definition is_ascii (c : char) : bool := c <? 128.

(** Lower-casing yields at most one ASCII character per character of its
    argument.  CPython's [str.lower] does: it maps a character of the string
    to one to three characters of which at most one is ASCII. *)
Definition lower_ascii_bound {U : PyUnicode} : Prop :=
  forall s : pystr,
    (length (filter (fun c => is_ascii c = true) (str_lower s)) <= length s)%nat.

(** The messages of [validate_input]. *)
Definition msg_empty : pystr := py "Please enter a question.".
Definition msg_short : pystr := py "Please enter a more detailed question.".
Definition msg_long : pystr :=
  py "Question is too long. Please keep it under 1000 characters.".
Definition msg_genuine : pystr :=
  py "Please enter a genuine chemical engineering question.".

(** [s] starts with an occurrence of the pattern [From <label>:]: the text
    [From ], a non-empty label free of colons, and a colon; [rest] is what
    follows. *)
Definition occurrence_at_head (s label rest : pystr) : Prop :=
  s = py "From " ++ label ++ COLON :: rest /\ label <> [] /\ COLON ∉ label.

(** The labels of the occurrences a scan from left to right finds, each
    occurrence starting behind the one before. *)
Inductive source_matches : pystr -> list pystr -> Prop :=
| sm_end : source_matches [] []
| sm_hit s label rest labels :
    occurrence_at_head s label rest ->
    source_matches rest labels ->
    source_matches s (label :: labels)
| sm_skip c s labels :
    (forall label rest, ~ occurrence_at_head (c :: s) label rest) ->
    source_matches s labels ->
    source_matches (c :: s) labels.





(** The closed set of categories. *)
Definition categories : list pystr :=
  [py "calculation"; py "theory"; py "safety"; py "design"; py "general"].

(** The answer to a rejected question. *)
Definition rejection (message : pystr) : response :=
  {| answer := message;
     sources := [];
     question_type := py "error";
     processing_time := 0;
     web_context_used := None;
     error := None |}.

(** A completion service that answers with a fixed text, and a clock that
    counts its readings. *)
Definition canned_services : Services :=
  {| generate_content := fun _ => inr (py "**Overview:** ok");
     time_time := fun n => Z.of_nat n |}.

(** A fresh bot in a fresh session. *)
Definition fresh_world : world :=
  {| is_initialized := true;
     conversation_history := Some [];
     session := {| interaction_log := None; current_time := None |};
     clock_reads := 0;
     calls := [] |}.

(** The result [_search_wikipedia] builds from the body of a summary. *)
Definition wikipedia_result (data : summary) : result :=
  {| title := Some (default [] (sm_title data));
     url := Some (default [] (sm_page data));
     snippet := Some (default [] (sm_extract data));
     source := Some (py "Wikipedia");
     priority := Some 8%Z |}.

(** A request that gives no result: anything but status 200 with a readable
    body. *)
Definition no_summary {W : Web} (url : pystr) : Prop :=
  forall data, session_get url <> HttpStatus 200 (Some data).

(** A result whose rendered line gives its source label back: the label
    is not empty and has no colon, and the snippet does not contain the text
    [From ] that starts the pattern. *)
Definition citable (r : result) : Prop :=
  get_source r <> [] /\ (COLON ∉ get_source r)
  /\ str_in (py "From ") (get_snippet r) = false.

(** The results [get_relevant_context] renders. *)
Definition rendered_results (search_results : list result) : list result :=
  filter (fun r => get_snippet r <> []) (take 3 search_results).

(** A network whose summaries never contain the text [From ]. *)
Definition plain_summaries {W : Web} : Prop :=
  forall (url : pystr) (data : summary),
    session_get url = HttpStatus 200 (Some data) ->
    str_in (py "From ") (default [] (sm_extract data)) = false.

(** A network that answers every request with the same summary. *)
Definition canned_web : Web :=
  {| session_get := fun _ =>
       HttpStatus 200
         (Some {| sm_title := Some (py "Distillation");
                  sm_page := Some (py "https://en.wikipedia.org/wiki/Distillation");
                  sm_extract := Some (py "Distillation separates mixtures: by boiling.") |}) |}.

(** The number of turns of one question type. *)
Definition turns_of_type (t : pystr) (history : list turn) : nat :=
  length (filter (fun c => turn_question_type c = t) history).

(** The sum of the counts of a histogram. *)
Definition sum_counts (m : gmap pystr nat) : nat :=
  map_fold (fun _ n acc => (n + acc)%nat) 0%nat m.


(** The safety words that [categorize_question] and [SAFETY_KEYWORDS]
    share. *)
Definition shared_safety_words : list pystr :=
  [py "hazard"; py "danger"; py "toxic"; py "risk"; py "accident";
   py "emergency"].

(** The topics of [suggest_related_topics] that occur in the lower-cased
    question, with their related topics, in the table's order. *)
Definition matched_topics {U : PyUnicode} (question : pystr)
    : list (pystr * list pystr) :=
  filter (fun it => str_in it.1 (str_lower question) = true) topic_suggestions.
(** * Properties *)

(** ** Substring containment *)

Lemma startswith_spec s p : startswith s p = true <-> exists t, s = p ++ t.
Proof.
  revert s; induction p as [|a p IH]; intros s; simpl.
  - split; [intros _; by exists s | done].
  - destruct s as [|b s].
    + split; [done | intros [t Ht]; discriminate].
    + rewrite andb_true_iff, N.eqb_eq, IH. split.
      * intros [-> [t ->]]. by exists t.
      * intros [t Ht]. injection Ht as -> ->. eauto.
Qed.

Lemma str_in_spec w s : str_in w s = true <-> substring w s.
Proof.
  unfold substring. induction s as [|c s IH]; simpl.
  - rewrite orb_false_r, startswith_spec. split.
    + intros [t Ht]. by exists [], t.
    + intros (a & b & Hab). symmetry in Hab.
      apply app_eq_nil in Hab as [-> Hwb]. apply app_eq_nil in Hwb as [-> ->].
      by exists [].
  - rewrite orb_true_iff, startswith_spec, IH. split.
    + intros [[t Ht] | (a & b & Hab)].
      * by exists [], t.
      * exists (c :: a), b. by rewrite Hab.
    + intros ([|c' a] & b & Hab).
      * left. by exists b.
      * right. injection Hab as -> ->. by exists a, b.
Qed.

Lemma any_in_spec words text : any_in words text = true <-> mentions words text.
Proof.
  unfold any_in, mentions. rewrite existsb_exists. split.
  - intros (w & Hin & Hw). exists w. by rewrite list_elem_of_In, <- str_in_spec.
  - intros (w & Hin & Hw). exists w. by rewrite <- list_elem_of_In, str_in_spec.
Qed.

Lemma any_in_false words text : any_in words text = false <-> ~ mentions words text.
Proof. rewrite <- any_in_spec. by destruct (any_in words text). Qed.

(** ** The classifier *)

Section Classifier.
Context {U : PyUnicode}.

(** C1: [categorize_question] tests the keyword lists against the
    lower-cased question in the order safety, calculation, design, theory,
    by substring containment; the first list with a word that occurs decides
    the category, a safety word beats a calculation word, and a question that
    matches no list is general. *)
Theorem categorize_question_priority (question : pystr) :
  let q := str_lower question in
  (mentions safety_words q -> categorize_question question = py "safety")
  /\ (~ mentions safety_words q -> mentions calc_words q ->
      categorize_question question = py "calculation")
  /\ (~ mentions safety_words q -> ~ mentions calc_words q ->
      mentions design_words q ->
      categorize_question question = py "design")
  /\ (~ mentions safety_words q -> ~ mentions calc_words q ->
      ~ mentions design_words q -> mentions theory_words q ->
      categorize_question question = py "theory")
  /\ (mentions safety_words q -> mentions calc_words q ->
      categorize_question question = py "safety")
  /\ (~ mentions safety_words q -> ~ mentions calc_words q ->
      ~ mentions design_words q -> ~ mentions theory_words q ->
      categorize_question question = py "general").
Proof.
  intros q. unfold categorize_question. fold q.
  repeat split; intros;
    repeat match goal with
    | H : mentions _ _ |- _ => apply any_in_spec in H; rewrite H
    | H : ~ mentions _ _ |- _ => apply any_in_false in H; rewrite H
    end; reflexivity.
Qed.

(** C10: a question whose lower-cased text contains "what is the" and no
    safety word is a calculation question, never a theory question, whatever
    theory words it contains: "what is the" is a calculation keyword and the
    calculation list is tested first. *)
Theorem what_is_the_is_calculation (question : pystr) :
  substring (py "what is the") (str_lower question) ->
  ~ mentions safety_words (str_lower question) ->
  categorize_question question = py "calculation"
  /\ categorize_question question <> py "theory".
Proof.
  intros Hsub Hsafe.
  assert (Hcalc : mentions calc_words (str_lower question)).
  { exists (py "what is the"). split; [|done].
    unfold calc_words. rewrite !elem_of_cons. tauto. }
  unfold categorize_question.
  rewrite (proj2 (any_in_false _ _) Hsafe), (proj2 (any_in_spec _ _) Hcalc).
  split; [reflexivity | discriminate].
Qed.

(** "what is the" contains the theory keyword "what is": every question C10
    speaks of matches the theory list too. *)
Lemma what_is_the_mentions_theory (text : pystr) :
  substring (py "what is the") text -> mentions theory_words text.
Proof.
  intros (a & b & ->). exists (py "what is"). split.
  - unfold theory_words. rewrite !elem_of_cons. tauto.
  - exists a, (py " the" ++ b). reflexivity.
Qed.

End Classifier.

(** The questions of C1 and C10 on ASCII text. *)
Lemma categorize_question_witness :
  categorize_question (U := ascii_tables)
    (py "Calculate the risk of a runaway reaction") = py "safety".
Proof.
  destruct (categorize_question_priority (U := ascii_tables)
              (py "Calculate the risk of a runaway reaction"))
    as (_ & _ & _ & _ & Hboth & _).
  apply Hboth; apply any_in_spec; vm_compute; reflexivity.
Defined.

Example categorize_general :
  categorize_question (U := ascii_tables) (py "Tell me about pumps") = py "general".
Proof. reflexivity. Qed.

Lemma what_is_the_witness :
  categorize_question (U := ascii_tables)
    (py "What is the difference between a CSTR and a PFR?") = py "calculation"
  /\ categorize_question (U := ascii_tables)
    (py "What is the difference between a CSTR and a PFR?") <> py "theory".
Proof.
  apply (what_is_the_is_calculation (U := ascii_tables)).
  - apply str_in_spec. vm_compute. reflexivity.
  - apply any_in_false. vm_compute. reflexivity.
Defined.

(** ** Sorting by priority *)

Section SortedDesc.
Context {A : Type} (key : A -> Z).

Lemma insert_desc_perm x l : insert_desc key x l ≡ₚ x :: l.
Proof.
  induction l as [|y l IH]; simpl; [done|].
  destruct (key x <? key y)%Z; [|done].
  rewrite IH. apply Permutation_swap.
Qed.

Lemma sorted_desc_perm l : sorted_desc key l ≡ₚ l.
Proof.
  induction l as [|x l IH]; simpl; [done|].
  by rewrite insert_desc_perm, IH.
Qed.

Lemma insert_desc_sorted x l :
  StronglySorted (desc key) l -> StronglySorted (desc key) (insert_desc key x l).
Proof.
  induction l as [|y l IH]; simpl; intros Hl.
  - repeat constructor.
  - apply StronglySorted_inv in Hl as [Hl Hy].
    destruct (key x <? key y)%Z eqn:E.
    + apply Z.ltb_lt in E. constructor; [by apply IH|].
      rewrite (insert_desc_perm x l). constructor; [unfold desc; lia | done].
    + apply Z.ltb_ge in E. constructor; [by constructor|].
      constructor; [done|].
      eapply Forall_impl; [exact Hy|]. unfold desc. intros z Hz. lia.
Qed.

Lemma sorted_desc_sorted l : StronglySorted (desc key) (sorted_desc key l).
Proof.
  induction l as [|x l IH]; simpl; [constructor | by apply insert_desc_sorted].
Qed.

(** Stability: among the elements of one key the order is unchanged. *)
Lemma insert_desc_stable p x l :
  filter (fun a => key a = p) (insert_desc key x l)
  = filter (fun a => key a = p) (x :: l).
Proof.
  induction l as [|y l IH]; simpl; [done|].
  destruct (key x <? key y)%Z eqn:E; [|done].
  apply Z.ltb_lt in E.
  rewrite filter_cons, IH, !filter_cons.
  repeat case_decide; try done; lia.
Qed.

Lemma sorted_desc_stable p l :
  filter (fun a => key a = p) (sorted_desc key l) = filter (fun a => key a = p) l.
Proof.
  induction l as [|x l IH]; simpl; [done|].
  by rewrite insert_desc_stable, !filter_cons, IH.
Qed.

End SortedDesc.

(** ** Deduplication *)

Lemma dedup_loop_acc results seen acc :
  dedup_loop results seen acc = acc ++ dedup_loop results seen [].
Proof.
  revert seen acc; induction results as [|r results IH]; intros seen acc; simpl.
  - by rewrite app_nil_r.
  - destruct (negb _ && negb _); [|apply IH].
    rewrite (IH _ (acc ++ [r])), (IH _ [r]). by rewrite <- app_assoc.
Qed.

Lemma dedup_loop_cons r results seen :
  dedup_loop (r :: results) seen [] =
    if negb (bool_decide (get_url r = [])) && negb (bool_decide (get_url r ∈ seen))
    then r :: dedup_loop results ({[get_url r]} ∪ seen) []
    else dedup_loop results seen [].
Proof.
  simpl. destruct (negb _ && negb _); [|done]. by rewrite dedup_loop_acc.
Qed.

Lemma keep_test_true (u : pystr) (seen : gset pystr) :
  negb (bool_decide (u = [])) && negb (bool_decide (u ∈ seen)) = true
  <-> u <> [] /\ u ∉ seen.
Proof.
  rewrite andb_true_iff, !negb_true_iff, !bool_decide_eq_false. tauto.
Qed.

Lemma keep_test_false (u : pystr) (seen : gset pystr) :
  negb (bool_decide (u = [])) && negb (bool_decide (u ∈ seen)) = false
  <-> u = [] \/ u ∈ seen.
Proof.
  rewrite andb_false_iff, !negb_false_iff, !bool_decide_eq_true. tauto.
Qed.

Lemma dedup_loop_sublist results seen : sublist (dedup_loop results seen []) results.
Proof.
  revert seen; induction results as [|r results IH]; intros seen.
  - constructor.
  - rewrite dedup_loop_cons. destruct (negb _ && negb _).
    + apply sublist_skip, IH.
    + apply sublist_cons, IH.
Qed.

Lemma dedup_loop_elem results seen r :
  r ∈ dedup_loop results seen [] <->
  exists l1 l2,
    results = l1 ++ r :: l2 /\ get_url r <> [] /\ (get_url r ∉ seen)
    /\ (get_url r ∉ get_url <$> l1).
Proof.
  revert seen; induction results as [|r0 results IH]; intros seen.
  - simpl. split; [intros H; by apply elem_of_nil in H|].
    intros ([|? ?] & ? & ? & _); discriminate.
  - rewrite dedup_loop_cons.
    destruct (negb _ && negb _) eqn:E.
    + apply keep_test_true in E as [Hne Hns].
      rewrite elem_of_cons, IH. split.
      * intros [-> | (l1 & l2 & -> & Hr & Hseen & Hl1)].
        -- exists [], results. repeat split; [done..|]. simpl. apply not_elem_of_nil.
        -- apply not_elem_of_union in Hseen as [Hne0 Hseen].
           rewrite elem_of_singleton in Hne0.
           exists (r0 :: l1), l2. repeat split; [done..|].
           rewrite fmap_cons, not_elem_of_cons. done.
      * intros ([|r1 l1] & l2 & Heq & Hr & Hseen & Hl1); simplify_eq/=.
        -- by left.
        -- right. apply not_elem_of_cons in Hl1 as [Hne1 Hl1].
           exists l1, l2. repeat split; [done| |done].
           rewrite not_elem_of_union, elem_of_singleton. done.
    + apply keep_test_false in E.
      rewrite IH. split.
      * intros (l1 & l2 & -> & Hr & Hseen & Hl1).
        exists (r0 :: l1), l2. repeat split; [done..|].
        rewrite fmap_cons, not_elem_of_cons. split; [|done].
        intros Heq. rewrite Heq in *. tauto.
      * intros ([|r1 l1] & l2 & Heq & Hr & Hseen & Hl1); simplify_eq/=.
        -- tauto.
        -- apply not_elem_of_cons in Hl1 as [_ Hl1]. by exists l1, l2.
Qed.

Lemma dedup_loop_nodup results seen :
  NoDup (get_url <$> dedup_loop results seen []).
Proof.
  revert seen; induction results as [|r results IH]; intros seen.
  - constructor.
  - rewrite dedup_loop_cons. destruct (negb _ && negb _); [|apply IH].
    rewrite fmap_cons. constructor; [|apply IH].
    intros Hin. apply list_elem_of_fmap in Hin as (r' & Heq & Hin).
    apply dedup_loop_elem in Hin as (_ & _ & _ & _ & Hseen & _).
    rewrite <- Heq, not_elem_of_union, elem_of_singleton in Hseen. tauto.
Qed.

(** C2: [_deduplicate_results] keeps, in their order, exactly the results
    that are first seen with their non-empty url, so no url is kept twice and
    a later duplicate is dropped; the kept results are then sorted by priority,
    largest first, results of equal priority staying in their order.  On
    [{url:A,p:1}, {url:B,p:5}, {url:A,p:9}] the outcome is
    [{url:B,p:5}, {url:A,p:1}]. *)
Theorem deduplicate_results_spec :
  (forall results : list result,
    exists kept : list result,
      sublist kept results
      /\ (forall r, r ∈ kept <-> first_seen results r)
      /\ NoDup (get_url <$> kept)
      /\ _deduplicate_results results ≡ₚ kept
      /\ StronglySorted (desc get_priority) (_deduplicate_results results)
      /\ (forall p : Z,
           filter (fun r => get_priority r = p) (_deduplicate_results results)
           = filter (fun r => get_priority r = p) kept))
  /\ _deduplicate_results [candidate "A" 1; candidate "B" 5; candidate "A" 9]
     = [candidate "B" 5; candidate "A" 1].
Proof.
  split.
  - intros results. exists (dedup_loop results ∅ []).
    split; [apply dedup_loop_sublist|].
    split.
    { intros r. rewrite dedup_loop_elem. unfold first_seen.
      split; intros (l1 & l2 & H); exists l1, l2;
        pose proof (not_elem_of_empty (C := gset pystr) (get_url r)); tauto. }
    split; [apply dedup_loop_nodup|].
    unfold _deduplicate_results.
    split; [apply sorted_desc_perm|].
    split; [apply sorted_desc_sorted | intros p; apply sorted_desc_stable].
  - vm_compute. reflexivity.
Qed.

(** C3, as the code has it: a result whose url is empty or absent never
    reaches the deduplicated list, and leaving such results out of the input
    changes nothing. *)
Theorem deduplicate_drops_empty_urls (results : list result) :
  Forall (fun r => get_url r <> []) (_deduplicate_results results)
  /\ _deduplicate_results (filter (fun r => get_url r <> []) results)
     = _deduplicate_results results.
Proof.
  split.
  - apply Forall_forall. intros r Hr.
    unfold _deduplicate_results in Hr. rewrite sorted_desc_perm in Hr.
    apply dedup_loop_elem in Hr as (_ & _ & _ & Hne & _). done.
  - unfold _deduplicate_results. f_equal.
    generalize (∅ : gset pystr) as seen.
    induction results as [|r results IH]; intros seen; [done|].
    rewrite filter_cons. case_decide as Hu.
    + rewrite !dedup_loop_cons. destruct (negb _ && negb _); by rewrite IH.
    + rewrite dedup_loop_cons.
      assert (get_url r = []) as -> by (by destruct (decide (get_url r = []))).
      simpl. apply IH.
Qed.

(** C3 as stated fails: two results without url are both dropped. *)
Lemma empty_url_results_are_dropped :
  ~ (forall (results : list result) (r : result),
       r ∈ results -> get_url r = [] -> r ∈ _deduplicate_results results).
Proof.
  intros H.
  set (e1 := {| title := Some (py "first"); url := Some []; snippet := None;
                source := None; priority := Some 3%Z |}).
  set (e2 := {| title := Some (py "second"); url := None; snippet := None;
                source := None; priority := Some 4%Z |}).
  specialize (H [e1; e2] e1).
  assert (Hin : e1 ∈ _deduplicate_results [e1; e2]).
  { apply H; [apply list_elem_of_here | reflexivity]. }
  vm_compute in Hin. by apply elem_of_nil in Hin.
Qed.

(** ** The context bundle *)

Lemma context_parts_length search_results :
  (length (context_parts search_results) <= 3)%nat.
Proof.
  unfold context_parts. rewrite length_fmap.
  etrans; [apply length_filter|]. rewrite length_take. lia.
Qed.

Lemma render_context_join search_results :
  render_context search_results
  = join [NEWLINE; NEWLINE] (context_parts search_results).
Proof. by destruct search_results. Qed.

Lemma take_3_scrape_sources sources :
  take 3 (scrape_sources sources) = take 3 (_deduplicate_results (concat sources)).
Proof. unfold scrape_sources, max_results. rewrite take_take. reflexivity. Qed.

(** C4: whatever the providers return, the rendered context is built from
    at most three entries, the first three of the deduplicated, priority-sorted
    pool; [get_relevant_context] renders exactly those for every query, every
    interpreter table and every network.  Ten synthetic candidates from two
    providers give three lines. *)
Theorem context_bundle_at_most_three :
  (forall sources : list (list result),
     let pool := _deduplicate_results (concat sources) in
     let bundle := take 3 pool in
     context_parts (scrape_sources sources)
       = render_result <$> filter (fun r => get_snippet r <> []) bundle
     /\ (length bundle <= 3)%nat
     /\ (length (context_parts (scrape_sources sources)) <= 3)%nat
     /\ render_context (scrape_sources sources)
        = join [NEWLINE; NEWLINE] (context_parts (scrape_sources sources)))
  /\ (forall (U : PyUnicode) (W : Web) (query : pystr),
       let enhanced_query := query ++ py " chemical engineering" in
       get_relevant_context query
       = render_context
           (scrape_sources [_search_wikipedia enhanced_query;
                            _search_educational_sites enhanced_query]))
  /\ context_parts (scrape_sources ten_candidates)
     = [py "From Test: j"; py "From Test: b"; py "From Test: h"].
Proof.
  split; [|split].
  - intros sources pool bundle. repeat split.
    + unfold context_parts. by rewrite take_3_scrape_sources.
    + unfold bundle. rewrite length_take. lia.
    + apply context_parts_length.
    + apply render_context_join.
  - reflexivity.
  - vm_compute. reflexivity.
Qed.

(** ** The text normalizer *)

Lemma join_space_cons t ts : join [SPACE] (t :: ts) = t ++ sepcat ts.
Proof.
  revert t; induction ts as [|t' ts IH]; intros t.
  - simpl. by rewrite app_nil_r.
  - change (join [SPACE] (t :: t' :: ts)) with (t ++ [SPACE] ++ join [SPACE] (t' :: ts)).
    by rewrite IH.
Qed.

Lemma scan_fields_cons (P : char -> bool) c s :
  scan_fields P (c :: s)
  = if P c then (c :: (scan_fields P s).1, (scan_fields P s).2)
    else ([], push_field (scan_fields P s).1 (scan_fields P s).2).
Proof. simpl. by destruct (scan_fields P s). Qed.

Section Fields.
Context (P : char -> bool).

(** The runs a scan returns are runs of [P] characters, and the completed
    ones are not empty. *)
Lemma scan_fields_runs s :
  Forall (fun c => P c = true) (scan_fields P s).1
  /\ Forall (fun t => t <> [] /\ Forall (fun c => P c = true) t) (scan_fields P s).2.
Proof.
  induction s as [|c s [IH1 IH2]]; simpl; [by split|].
  destruct (scan_fields P s) as [t ts]; simpl in *.
  destruct (P c) eqn:E; simpl.
  - split; [by constructor | done].
  - split; [constructor|]. destruct t; simpl; [done|].
    constructor; [by split | done].
Qed.

Lemma scan_fields_head_nil c s : P c = false -> (scan_fields P (c :: s)).1 = [].
Proof. intros E. simpl. destruct (scan_fields P s). by rewrite E. Qed.

Lemma fields_runs s :
  Forall (fun t => t <> [] /\ Forall (fun c => P c = true) t) (fields P s).
Proof.
  unfold fields. destruct (scan_fields_runs s) as [H1 H2].
  destruct (scan_fields P s) as [[|c t] ts]; simpl in *; [done|].
  constructor; [by split | done].
Qed.

End Fields.

Lemma maximal_runs_cons (P : char -> bool) c s ts :
  P c = false -> maximal_runs P s ts -> maximal_runs P (c :: s) ts.
Proof.
  intros Hc [s' Hs | pre t rest ts' Hpre Hne Ht Hrest Hts].
  - apply mr_none. by constructor.
  - apply (mr_run P (c :: pre) t rest ts'); [by constructor | done..].
Qed.

(** [fields P s] are the maximal runs of [P] characters of [s]; so
    [split_ws s] are the words of [s], as [s.split()] gives them. *)
Lemma fields_maximal_runs (P : char -> bool) s : maximal_runs P s (fields P s).
Proof.
  assert (H : exists rest,
    s = (scan_fields P s).1 ++ rest
    /\ match rest with [] => True | c :: _ => P c = false end
    /\ Forall (fun c => P c = true) (scan_fields P s).1
    /\ maximal_runs P rest (scan_fields P s).2).
  { induction s as [|c s (rest & Hs & Hrest & Ht & Hts)].
    - exists []. repeat split; [constructor | apply mr_none; constructor].
    - rewrite scan_fields_cons. destruct (P c) eqn:E; cbn [fst snd].
      + exists rest. split; [by rewrite <- app_comm_cons, <- Hs|].
        split; [done|]. split; [by constructor | done].
      + exists (c :: s). split; [done|]. split; [done|]. split; [constructor|].
        destruct (scan_fields P s) as [[|x t] ts]; cbn [fst snd push_field app] in *.
        * subst rest. by apply maximal_runs_cons.
        * rewrite Hs.
          apply (mr_run P [c] (x :: t) rest ts); [by repeat constructor | done..]. }
  destruct H as (rest & Hs & Hrest & Ht & Hts). unfold fields.
  destruct (scan_fields P s) as [[|x t] ts]; cbn [fst snd push_field app] in *.
  - by subst rest.
  - rewrite Hs. apply (mr_run P [] (x :: t) rest ts); [constructor | done..].
Qed.

Lemma scan_fields_sub (P Q : char -> bool) s :
  (forall c, Q c = true -> P c = true) ->
  (scan_fields P s).1 = [] -> (scan_fields Q s).1 = [].
Proof.
  intros HQP. destruct s as [|c s]; [done|]. simpl.
  destruct (scan_fields P s), (scan_fields Q s).
  destruct (P c) eqn:E; [done|]. intros _.
  destruct (Q c) eqn:E'; [|done]. apply HQP in E'. congruence.
Qed.

(** Cutting a joined string again, by a test that is no weaker and that
    rejects the space, is cutting the original string. *)
Lemma scan_fields_join (P Q : char -> bool) s :
  (forall c, Q c = true -> P c = true) -> Q SPACE = false ->
  scan_fields Q ((scan_fields P s).1 ++ sepcat (scan_fields P s).2)
  = scan_fields Q s.
Proof.
  intros HQP HQs. induction s as [|c s IH]; [done|].
  pose proof (scan_fields_sub P Q s HQP) as Hnil.
  simpl. destruct (scan_fields P s) as [t ts]; simpl in *.
  destruct (P c) eqn:E; simpl.
  - by rewrite IH.
  - assert (Q c = false) as ->.
    { destruct (Q c) eqn:E'; [|done]. apply HQP in E'. congruence. }
    destruct t as [|x t]; simpl in *.
    + rewrite IH. specialize (Hnil eq_refl).
      destruct (scan_fields Q s) as [a b]; simpl in *. by subst.
    + unfold sepcat in *. simpl. rewrite HQs.
      change (x :: t ++ concat (map (cons SPACE) ts))
        with ((x :: t) ++ concat (map (cons SPACE) ts)).
      by rewrite IH.
Qed.

Lemma fields_join (P Q : char -> bool) s :
  (forall c, Q c = true -> P c = true) -> Q SPACE = false ->
  fields Q (join [SPACE] (fields P s)) = fields Q s.
Proof.
  intros HQP HQs. pose proof (scan_fields_join P Q s HQP HQs) as H.
  unfold fields at 2 3. destruct (scan_fields P s) as [[|c t] ts]; cbn [fst snd push_field] in *.
  - destruct ts as [|x ts].
    + simpl in *. by rewrite <- H.
    + rewrite join_space_cons. unfold fields at 1.
      rewrite <- H. unfold sepcat. simpl. rewrite HQs.
      fold (sepcat ts). destruct (scan_fields Q (x ++ sepcat ts)) as [a b].
      by destruct a.
  - rewrite join_space_cons. unfold fields. by rewrite H.
Qed.

Lemma lstrip_snoc s c :
  lstrip (s ++ [c])
  = match lstrip s with
    | [] => if is_space c then [] else [c]
    | r => r ++ [c]
    end.
Proof.
  induction s as [|x s IH]; [done|]. simpl.
  destruct (is_space x); [exact IH | done].
Qed.

(** [rstrip] is [lstrip] read from the other end. *)
Lemma rstrip_rev s : rstrip s = rev (lstrip (rev s)).
Proof.
  induction s as [|c s IH]; [done|].
  cbn [rstrip rev]. rewrite lstrip_snoc, IH.
  destruct (lstrip (rev s)) as [|x r]; [simpl; by destruct (is_space c)|].
  rewrite rev_app_distr. cbn [rev app].
  destruct (rev r ++ [x]) eqn:E; [by destruct (rev r)|done].
Qed.

Lemma rstrip_cons_non_space c s : is_space c = false -> rstrip (c :: s) = c :: rstrip s.
Proof. intros E. simpl. rewrite E. by destruct (rstrip s). Qed.

Lemma collapse_ws_space_space c c' s :
  is_space c = true -> is_space c' = true ->
  collapse_ws (c :: c' :: s) = collapse_ws (c' :: s).
Proof. intros E E'. simpl. by rewrite E, E'. Qed.

Lemma collapse_ws_space_other c c' s :
  is_space c = true -> is_space c' = false ->
  collapse_ws (c :: c' :: s) = SPACE :: collapse_ws (c' :: s).
Proof. intros E E'. simpl. by rewrite E, E'. Qed.

Lemma collapse_ws_other c s :
  is_space c = false -> collapse_ws (c :: s) = c :: collapse_ws s.
Proof. intros E. simpl. by rewrite E. Qed.

Lemma rstrip_collapse_ws s :
  rstrip (collapse_ws s)
  = (scan_fields non_space s).1 ++ sepcat (scan_fields non_space s).2.
Proof.
  assert (Hns : forall c, non_space c = negb (is_space c)) by done.
  induction s as [|c s IH]; [done|].
  rewrite scan_fields_cons, Hns.
  destruct (is_space c) eqn:E; cbn [negb fst snd app].
  - destruct s as [|c' s].
    + simpl. by rewrite E.
    + rewrite scan_fields_cons, Hns in IH |- *.
      destruct (is_space c') eqn:E'; cbn [negb fst snd app push_field] in IH |- *.
      * by rewrite collapse_ws_space_space.
      * rewrite collapse_ws_space_other by done.
        cbn [rstrip]. rewrite IH. reflexivity.
  - rewrite collapse_ws_other, rstrip_cons_non_space by done. by rewrite IH.
Qed.

Lemma lstrip_non_space c s : is_space c = false -> lstrip (c :: s) = c :: s.
Proof. intros E. simpl. by rewrite E. Qed.

(** [re.sub(r'\s+', ' ', s).strip()] is [' '.join(s.split())]. *)
Lemma strip_collapse_ws s : strip (collapse_ws s) = join [SPACE] (split_ws s).
Proof.
  unfold strip, split_ws, fields. rewrite rstrip_collapse_ws.
  fold non_space.
  destruct (scan_fields_runs non_space s) as [H1 H2].
  assert (Hns : forall c, non_space c = true -> is_space c = false).
  { intros c. unfold non_space. by destruct (is_space c). }
  destruct (scan_fields non_space s) as [[|c t] ts]; cbn [fst snd push_field app] in *.
  - destruct ts as [|[|c x] ts]; [done| |].
    + apply Forall_cons in H2 as [[? _] _]. done.
    + apply Forall_cons in H2 as [[_ Hx] _]. apply Forall_cons in Hx as [Hc _].
      rewrite join_space_cons. unfold sepcat. cbn [map concat app lstrip].
      change (is_space SPACE) with true. cbv iota.
      apply lstrip_non_space. by apply Hns.
  - apply Forall_cons in H1 as [Hc _]. rewrite join_space_cons.
    apply lstrip_non_space. by apply Hns.
Qed.

Lemma filter_sepcat (P : char -> bool) ts :
  P SPACE = false ->
  filter (fun c => P c = true) (sepcat ts)
  = filter (fun c => P c = true) (concat ts).
Proof.
  intros HP. induction ts as [|t ts IH]; [done|].
  unfold sepcat in *. cbn [map concat]. rewrite <- app_comm_cons.
  rewrite filter_cons, !filter_app, IH.
  case_decide; [congruence | done].
Qed.

Lemma filter_scan_fields (P : char -> bool) s :
  filter (fun c => P c = true) s
  = (scan_fields P s).1 ++ concat (scan_fields P s).2.
Proof.
  induction s as [|c s IH]; [done|].
  rewrite scan_fields_cons, filter_cons, IH.
  destruct (P c) eqn:E; case_decide; try congruence; simpl; [done|].
  by destruct (scan_fields P s).1.
Qed.

(** Joining the runs of [P] characters and keeping the [P] characters of the
    whole string come to the same characters. *)
Lemma filter_join_fields (P : char -> bool) s :
  P SPACE = false ->
  filter (fun c => P c = true) (join [SPACE] (fields P s))
  = filter (fun c => P c = true) s.
Proof.
  intros HP. rewrite (filter_scan_fields P s). unfold fields.
  destruct (scan_fields_runs P s) as [H1 H2].
  assert (Hall : forall t : pystr,
    Forall (fun c => P c = true) t -> filter (fun c => P c = true) t = t).
  { intros t Ht. induction Ht as [|c t Hc _ IH]; [done|].
    rewrite filter_cons, IH. by case_decide. }
  assert (Hcat : forall ts : list pystr,
    Forall (fun t => t <> [] /\ Forall (fun c => P c = true) t) ts ->
    filter (fun c => P c = true) (concat ts) = concat ts).
  { intros ts Hts. induction Hts as [|t ts [_ Ht] _ IH]; [done|].
    simpl. by rewrite filter_app, IH, Hall. }
  destruct (scan_fields P s) as [[|c t] ts]; cbn [fst snd push_field app] in *.
  - destruct ts as [|x ts]; [done|].
    rewrite join_space_cons, filter_app, filter_sepcat by done.
    rewrite <- filter_app. by apply (Hcat (x :: ts)).
  - rewrite join_space_cons, filter_app, filter_sepcat, Hall, Hcat by done.
    reflexivity.
Qed.

Lemma join_fields_chars (P : char -> bool) s :
  Forall (fun c => c = SPACE \/ P c = true) (join [SPACE] (fields P s)).
Proof.
  pose proof (fields_runs P s) as H.
  induction H as [|t ts [_ Ht] Hts IH]; [constructor|].
  rewrite join_space_cons. apply Forall_app. split.
  - eapply Forall_impl; [exact Ht|]. tauto.
  - clear IH. induction Hts as [|t' ts' [_ Ht'] _ IH]; [constructor|].
    unfold sepcat in *. simpl. constructor; [by left|].
    apply Forall_app. split; [|exact IH].
    eapply Forall_impl; [exact Ht'|]. tauto.
Qed.

Lemma scan_fields_app_run (Q : char -> bool) t s :
  Forall (fun c => Q c = true) t ->
  scan_fields Q (t ++ s) = (t ++ (scan_fields Q s).1, (scan_fields Q s).2).
Proof.
  induction 1 as [|c t Hc _ IH]; simpl app.
  - by destruct (scan_fields Q s).
  - by rewrite scan_fields_cons, IH, Hc.
Qed.

Lemma scan_fields_sepcat (Q : char -> bool) ts :
  Q SPACE = false ->
  Forall (fun t => t <> [] /\ Forall (fun c => Q c = true) t) ts ->
  scan_fields Q (sepcat ts) = ([], ts).
Proof.
  intros HQ. induction 1 as [|t ts [Hne Ht] _ IH]; [done|].
  unfold sepcat in *. cbn [map concat]. rewrite <- app_comm_cons.
  rewrite scan_fields_cons, HQ, scan_fields_app_run, IH by done.
  cbn [fst snd]. rewrite app_nil_r. by destruct t.
Qed.

(** Cutting a string joined from non-empty runs gives the runs back. *)
Lemma fields_join_runs (Q : char -> bool) ts :
  Q SPACE = false ->
  Forall (fun t => t <> [] /\ Forall (fun c => Q c = true) t) ts ->
  fields Q (join [SPACE] ts) = ts.
Proof.
  intros HQ Hts. destruct Hts as [|t ts [Hne Ht] Hts]; [done|].
  rewrite join_space_cons. unfold fields.
  rewrite scan_fields_app_run, scan_fields_sepcat by done.
  cbn [fst snd]. rewrite app_nil_r. by destruct t.
Qed.

Section Normalizer.
Context {U : PyUnicode}.

Lemma kept_space : kept SPACE = false.
Proof. reflexivity. Qed.

Lemma kept_non_space c : kept c = true -> non_space c = true.
Proof. unfold kept, non_space. by intros [? _]%andb_true_iff. Qed.

Lemma sub_special_non_space c :
  non_space (if in_keep_class c then c else SPACE) = kept c.
Proof.
  unfold non_space, kept, in_keep_class.
  destruct (is_space c) eqn:Es, (is_word c), (is_formula_char c); simpl;
    by rewrite ?Es.
Qed.

Lemma sub_special_kept c :
  kept c = true -> (if in_keep_class c then c else SPACE) = c.
Proof.
  unfold kept, in_keep_class. intros [_ H]%andb_true_iff.
  destruct (is_word c), (is_formula_char c), (is_space c); done.
Qed.

Lemma scan_fields_sub_special s :
  scan_fields non_space (sub_special s) = scan_fields kept s.
Proof.
  induction s as [|c s IH]; [done|].
  unfold sub_special in *. cbn [map].
  rewrite !scan_fields_cons, IH, sub_special_non_space.
  destruct (kept c) eqn:E; [|done]. by rewrite sub_special_kept.
Qed.

Lemma clean_text_fields text :
  clean_text (Some text) = join [SPACE] (fields kept text).
Proof.
  destruct text as [|c text]; [done|].
  unfold clean_text. rewrite strip_collapse_ws.
  unfold split_ws at 1. fold non_space. unfold fields at 1.
  rewrite scan_fields_sub_special. fold (fields kept (join [SPACE] (split_ws (c :: text)))).
  unfold split_ws. fold non_space.
  by rewrite (fields_join non_space kept) by (apply kept_non_space || apply kept_space).
Qed.

Lemma kept_runs_non_space (ts : list pystr) :
  Forall (fun t => t <> [] /\ Forall (fun c => kept c = true) t) ts ->
  Forall (fun t => t <> [] /\ Forall (fun c => non_space c = true) t) ts.
Proof.
  intros H. eapply Forall_impl; [exact H|].
  intros t [Hne Ht]. split; [done|].
  eapply Forall_impl; [exact Ht|]. apply kept_non_space.
Qed.

(** C5, as the code has it: [clean_text] turns every character that is
    whitespace or outside the class of word characters (letters, digits and
    the underscore), parentheses, + - = / \, the degree sign, subscript digits
    and arrows into a separator; its result is the maximal runs of the other
    characters joined by single spaces.  So it holds exactly those characters,
    in their order, besides them only spaces, and collapsing whitespace and
    trimming it again changes nothing.  [None] and the empty string give the
    empty string. *)
Theorem clean_text_spec :
  clean_text None = []
  /\ clean_text (Some []) = []
  /\ forall text : pystr,
       (exists runs : list pystr,
          maximal_runs kept text runs
          /\ clean_text (Some text) = join [SPACE] runs)
       /\ filter (fun c => kept c = true) (clean_text (Some text))
          = filter (fun c => kept c = true) text
       /\ Forall (fun c => c = SPACE \/ kept c = true) (clean_text (Some text))
       /\ strip (collapse_ws (clean_text (Some text))) = clean_text (Some text).
Proof.
  split; [done|]. split; [done|]. intros text.
  rewrite clean_text_fields.
  split; [exists (fields kept text); split; [apply fields_maximal_runs | done]|].
  split; [apply filter_join_fields, kept_space|].
  split; [apply join_fields_chars|].
  rewrite strip_collapse_ws. unfold split_ws. fold non_space.
  f_equal. apply fields_join_runs; [done|].
  apply kept_runs_non_space, fields_runs.
Qed.

(** C6: [clean_text] is idempotent. *)
Theorem clean_text_idempotent (text : option pystr) :
  clean_text (Some (clean_text text)) = clean_text text.
Proof.
  destruct text as [text|]; [|done].
  rewrite !clean_text_fields. f_equal.
  apply fields_join_runs; [apply kept_space | apply fields_runs].
Qed.

End Normalizer.

(** C5 as stated fails: the underscore is outside the stated allow-list and
    stays, and a character outside the list leaves a space behind instead of
    vanishing. *)
Lemma clean_text_underscore_stays :
  clean_text (U := ascii_tables) (Some (py "a_b.c")) = py "a_b c"
  /\ ~ Forall (fun c => spec_allow_list (U := ascii_tables) c = true)
        (clean_text (U := ascii_tables) (Some (py "a_b.c")))
  /\ clean_text (U := ascii_tables) (Some (py "a_b.c"))
     <> filter (fun c => spec_allow_list (U := ascii_tables) c = true) (py "a_b.c").
Proof.
  split; [vm_compute; reflexivity|]. split.
  - intros H. rewrite Forall_forall in H.
    specialize (H 95). assert (E : spec_allow_list (U := ascii_tables) 95 = true).
    { apply H. vm_compute. apply list_elem_of_In. simpl. tauto. }
    vm_compute in E. discriminate.
  - vm_compute. discriminate.
Qed.

Example clean_text_formula :
  clean_text (U := ascii_tables)
    (Some ([32; 32] ++ py "2 H" ++ [8322] ++ py " + O" ++ [8322; 9; 10; 8594; 32]
           ++ py "2 H" ++ [8322] ++ py "O  @ 25" ++ [176] ++ py "C!"))
  = py "2 H" ++ [8322] ++ py " + O" ++ [8322; 32; 8594; 32]
      ++ py "2 H" ++ [8322] ++ py "O 25" ++ [176] ++ py "C".
Proof. vm_compute. reflexivity. Qed.

(** ** Input validation *)

Lemma rstrip_non_space s :
  Forall (fun c => is_space c = false) s -> rstrip s = s.
Proof.
  induction 1 as [|c s Hc _ IH]; [done|].
  by rewrite rstrip_cons_non_space, IH.
Qed.

Lemma strip_non_space s :
  Forall (fun c => is_space c = false) s -> strip s = s.
Proof.
  intros H. unfold strip. rewrite rstrip_non_space by done.
  destruct H as [|c s Hc _]; [done|]. by apply lstrip_non_space.
Qed.

Lemma substring_ascii_length w s :
  Forall (fun c => is_ascii c = true) w -> substring w s ->
  (length w <= length (filter (fun c => is_ascii c = true) s))%nat.
Proof.
  intros Hw (a & b & ->). rewrite !filter_app, !length_app.
  assert (filter (fun c => is_ascii c = true) w = w) as ->; [|lia].
  induction Hw as [|c w Hc _ IH]; [done|].
  rewrite filter_cons, IH. by case_decide.
Qed.

Lemma inappropriate_words_ascii w :
  w ∈ inappropriate_words ->
  Forall (fun c => is_ascii c = true) w /\ (4 <= length w)%nat.
Proof.
  unfold inappropriate_words. rewrite !elem_of_cons, elem_of_nil.
  intros [-> | [-> | [-> | []]]]; (split; [|simpl; lia]);
    repeat constructor.
Qed.

Section Validation.
Context {U : PyUnicode}.

Lemma validate_input_blank question :
  strip question = [] -> validate_input question = (false, msg_empty).
Proof.
  intros H. unfold validate_input.
  rewrite (bool_decide_eq_true_2 (strip question = [])) by done.
  by rewrite orb_true_r.
Qed.

Lemma validate_input_not_blank question :
  strip question <> [] ->
  bool_decide (question = []) || bool_decide (strip question = []) = false.
Proof.
  intros H. rewrite (bool_decide_eq_false_2 (strip question = [])) by done.
  rewrite orb_false_r. apply bool_decide_eq_false_2. by intros ->.
Qed.

(** C7, as the code has it: the checks run in a fixed order and the first
    that fails names the message.  A question that is empty after trimming
    (the empty question among them) gets the empty-question message; another
    one with fewer than 3 characters after trimming the more-detail message; a
    question of more than 1000 characters the length message when at least 3
    characters are left after trimming; a question whose lower-cased text
    holds a disallowed token is rejected; every other question is accepted,
    and a question of exactly 3 non-whitespace characters is one of them. *)
Theorem validate_input_spec (question : pystr) :
  validate_input [] = (false, msg_empty)
  /\ (strip question = [] -> validate_input question = (false, msg_empty))
  /\ (strip question <> [] -> (length (strip question) < 3)%nat ->
      validate_input question = (false, msg_short))
  /\ ((3 <= length (strip question))%nat -> (1000 < length question)%nat ->
      validate_input question = (false, msg_long))
  /\ (mentions inappropriate_words (str_lower question) ->
      (validate_input question).1 = false)
  /\ ((3 <= length (strip question))%nat -> (length question <= 1000)%nat ->
      mentions inappropriate_words (str_lower question) ->
      validate_input question = (false, msg_genuine))
  /\ ((3 <= length (strip question))%nat -> (length question <= 1000)%nat ->
      ~ mentions inappropriate_words (str_lower question) ->
      validate_input question = (true, []))
  /\ (lower_ascii_bound -> length question = 3%nat ->
      Forall (fun c => is_space c = false) question ->
      validate_input question = (true, [])).
Proof.
  assert (Hlong : (3 <= length (strip question))%nat ->
    validate_input question =
      if (1000 <? length question)%nat then (false, msg_long)
      else if any_in inappropriate_words (str_lower question)
           then (false, msg_genuine) else (true, [])).
  { intros H3. unfold validate_input.
    rewrite validate_input_not_blank by (intros E; rewrite E in H3; simpl in H3; lia).
    by rewrite (proj2 (Nat.ltb_ge _ _) H3). }
  assert (Hvalid : (3 <= length (strip question))%nat ->
    (length question <= 1000)%nat ->
    ~ mentions inappropriate_words (str_lower question) ->
    validate_input question = (true, [])).
  { intros H3 H1000 Hno. rewrite Hlong by done.
    rewrite (proj2 (Nat.ltb_ge _ _) H1000).
    by rewrite (proj2 (any_in_false _ _) Hno). }
  split; [done|].
  split; [apply validate_input_blank|].
  split.
  { intros Hne Hlt. unfold validate_input.
    rewrite validate_input_not_blank by done.
    by rewrite (proj2 (Nat.ltb_lt _ _) Hlt). }
  split.
  { intros H3 H1000. rewrite Hlong by done.
    by rewrite (proj2 (Nat.ltb_lt _ _) H1000). }
  split.
  { intros Hm. apply any_in_spec in Hm. unfold validate_input.
    destruct (_ || _); [done|].
    destruct (_ <? 3)%nat; [done|].
    destruct (1000 <? _)%nat; [done|].
    by rewrite Hm. }
  split.
  { intros H3 H1000 Hm. rewrite Hlong by done.
    rewrite (proj2 (Nat.ltb_ge _ _) H1000).
    by rewrite (proj2 (any_in_spec _ _) Hm). }
  split; [exact Hvalid|].
  intros Hlow Hlen Hns.
  assert (Hstrip : strip question = question) by (by apply strip_non_space).
  apply Hvalid; rewrite ?Hstrip; [lia | lia |].
  intros (w & Hw & Hsub).
  apply inappropriate_words_ascii in Hw as [Hascii H4].
  pose proof (substring_ascii_length _ _ Hascii Hsub).
  pose proof (Hlow question). lia.
Qed.

End Validation.

Lemma ascii_lower_ascii_bound : lower_ascii_bound (U := ascii_tables).
Proof.
  intros s. simpl. etrans; [apply length_filter|]. by rewrite length_map.
Qed.

(** The cases of C7 on concrete questions. *)
Lemma validate_input_witness :
  validate_input (U := ascii_tables) (py "CO2") = (true, []).
Proof.
  apply (validate_input_spec (U := ascii_tables) (py "CO2")).
  - exact ascii_lower_ascii_bound.
  - reflexivity.
  - repeat constructor.
Defined.

Example validate_input_two_chars :
  validate_input (U := ascii_tables) (py "hi") = (false, msg_short).
Proof. reflexivity. Qed.

Example validate_input_1001_chars :
  validate_input (U := ascii_tables) (repeat 120 1001) = (false, msg_long).
Proof. vm_compute. reflexivity. Qed.

Example validate_input_token :
  validate_input (U := ascii_tables) (py "Is this SPAM distillation?")
  = (false, msg_genuine).
Proof. vm_compute. reflexivity. Qed.

(** C7 as stated fails: a question of 1001 characters of which two are left
    after trimming is longer than 1000 characters and does not get the length
    message, and a question of one space has a trimmed length below 3 and does
    not get the more-detail message. *)
Lemma validate_input_message_order :
  (1000 < length (py "hi" ++ repeat SPACE 999))%nat
  /\ validate_input (U := ascii_tables) (py "hi" ++ repeat SPACE 999)
     = (false, msg_short)
  /\ msg_short <> msg_long
  /\ (length (strip [SPACE]) < 3)%nat
  /\ validate_input (U := ascii_tables) [SPACE] = (false, msg_empty)
  /\ msg_empty <> msg_short.
Proof.
  split; [vm_compute; lia|].
  split; [vm_compute; reflexivity|].
  split; [discriminate|].
  split; [vm_compute; lia|].
  split; [reflexivity | discriminate].
Qed.

(** ** Trimming *)

Lemma lstrip_elem c s : c ∈ lstrip s -> c ∈ s.
Proof.
  induction s as [|x s IH]; [done|]. simpl.
  destruct (is_space x); [|done]. intros H. right. by apply IH.
Qed.

Lemma rstrip_elem c s : c ∈ rstrip s -> c ∈ s.
Proof.
  rewrite rstrip_rev, !list_elem_of_In, <- in_rev, <- list_elem_of_In.
  intros H%lstrip_elem. by rewrite list_elem_of_In, <- in_rev in H.
Qed.

Lemma strip_elem c s : c ∈ strip s -> c ∈ s.
Proof. unfold strip. by intros H%lstrip_elem%rstrip_elem. Qed.

Lemma lstrip_head s :
  match lstrip s with [] => True | c :: _ => is_space c = false end.
Proof.
  induction s as [|x s IH]; [done|]. simpl.
  destruct (is_space x) eqn:E; [done|]. by rewrite E.
Qed.

Lemma lstrip_idem s : lstrip (lstrip s) = lstrip s.
Proof.
  pose proof (lstrip_head s) as H. destruct (lstrip s) as [|c r]; [done|].
  by apply lstrip_non_space.
Qed.

Lemma rstrip_idem s : rstrip (rstrip s) = rstrip s.
Proof. by rewrite !rstrip_rev, rev_involutive, lstrip_idem. Qed.

Lemma rstrip_lstrip s : rstrip s = s -> rstrip (lstrip s) = lstrip s.
Proof.
  induction s as [|c s IH]; [done|]. intros H. cbn [lstrip].
  destruct (is_space c) eqn:E; [|done]. apply IH.
  cbn [rstrip] in H. rewrite E in H.
  destruct (rstrip s) as [|x r]; [done|]. by injection H.
Qed.

Lemma strip_idem s : strip (strip s) = strip s.
Proof.
  unfold strip. rewrite (rstrip_lstrip (rstrip s)) by apply rstrip_idem.
  apply lstrip_idem.
Qed.

Lemma strip_whitespace s : Forall (fun c => is_space c = true) s -> strip s = [].
Proof.
  intros H. unfold strip.
  assert (E : rstrip s = []); [|by rewrite E].
  induction H as [|c s Hc _ IH]; [done|]. simpl. by rewrite IH, Hc.
Qed.










(** ** Source extraction *)

Lemma strip_prefix_spec p s r : strip_prefix p s = Some r <-> s = p ++ r.
Proof.
  revert s; induction p as [|a p IH]; intros s; simpl.
  - split; [by intros [= ->] | by intros ->].
  - destruct s as [|b s]; [done|].
    destruct (a =? b) eqn:E.
    + apply N.eqb_eq in E as ->. rewrite IH. split; [by intros -> | by intros [= ->]].
    + apply N.eqb_neq in E. split; [done | intros [= ? ?]; done].
Qed.

Lemma until_colon_spec a rest :
  COLON ∉ a -> until_colon (a ++ COLON :: rest) = (a, COLON :: rest).
Proof.
  induction a as [|c a IH]; intros Ha; [done|].
  apply not_elem_of_cons in Ha as [Hc Ha]. simpl.
  destruct (c =? COLON) eqn:E; [apply N.eqb_eq in E; congruence|].
  by rewrite IH.
Qed.

Lemma until_colon_inv s a b :
  until_colon s = (a, b) ->
  s = a ++ b /\ (COLON ∉ a) /\ (b = [] \/ exists rest, b = COLON :: rest).
Proof.
  revert a b; induction s as [|c s IH]; intros a b; simpl.
  - intros [= <- <-]. split; [done|]. split; [apply not_elem_of_nil | by left].
  - destruct (c =? COLON) eqn:E.
    + apply N.eqb_eq in E as ->. intros [= <- <-].
      split; [done|]. split; [apply not_elem_of_nil | right; eauto].
    + apply N.eqb_neq in E. destruct (until_colon s) as [a' b'].
      intros [= <- <-]. destruct (IH a' b' eq_refl) as (-> & Ha & Hb).
      split; [done|]. split; [|done]. rewrite not_elem_of_cons. auto.
Qed.

Lemma match_source_pattern_spec s label rest :
  match_source_pattern s = Some (label, rest) <-> occurrence_at_head s label rest.
Proof.
  unfold match_source_pattern, occurrence_at_head. split.
  - destruct (strip_prefix _ s) as [s1|] eqn:E; [|done].
    apply strip_prefix_spec in E as ->.
    destruct (until_colon s1) as [a b] eqn:E.
    apply until_colon_inv in E as (-> & Ha & Hb).
    destruct a as [|c a]; [done|].
    destruct b as [|d b]; [done|].
    intros [= <- <-]. destruct Hb as [? | [r [= -> ->]]]; done.
  - intros (-> & Hne & Hcolon).
    rewrite (proj2 (strip_prefix_spec _ _ (label ++ COLON :: rest)) eq_refl).
    rewrite until_colon_spec by done. by destruct label.
Qed.

Lemma occurrence_at_head_unique s label rest label' rest' :
  occurrence_at_head s label rest -> occurrence_at_head s label' rest' ->
  label = label' /\ rest = rest'.
Proof.
  intros H H'. apply match_source_pattern_spec in H, H'.
  rewrite H in H'. by injection H' as -> ->.
Qed.

(** [findall_sources] is that scan. *)
Lemma findall_sources_matches s : source_matches s (findall_sources s).
Proof.
  funelim (findall_sources s).
  - constructor.
  - eapply sm_hit; [|eassumption]. by apply match_source_pattern_spec.
  - apply sm_skip; [|assumption].
    intros label rest Ho. apply match_source_pattern_spec in Ho. congruence.
Qed.

Lemma source_matches_unique s labels labels' :
  source_matches s labels -> source_matches s labels' -> labels = labels'.
Proof.
  intros H. revert labels'. induction H as [|s label rest labels Ho _ IH|c s labels Hno _ IH];
    intros labels' H'.
  - inversion H' as [|? ? ? ? Ho'|]; [done|].
    destruct Ho' as [E _]. discriminate.
  - inversion H' as [|? label' rest' labels0 Ho' Hrest|c s0 ? Hno' Hs]; subst.
    + destruct Ho as [E _]. discriminate.
    + destruct (occurrence_at_head_unique _ _ _ _ _ Ho Ho') as [<- <-].
      f_equal. by apply IH.
    + by destruct (Hno' _ _ Ho).
  - inversion H' as [|? label' rest' labels0 Ho' Hrest|]; subst.
    + by destruct (Hno _ _ Ho').
    + by apply IH.
Qed.


Lemma startswith_app_false (x t p : pystr) :
  startswith x p = false ->
  match t with [] => True | h :: _ => h ∉ p end ->
  startswith (x ++ t) p = false.
Proof.
  revert x; induction p as [|a p IH]; intros x Hx Ht; [done|].
  destruct x as [|b x]; simpl in *.
  - destruct t as [|h t]; [done|].
    apply not_elem_of_cons in Ht as [Hne _].
    destruct (a =? h) eqn:E; [|done]. apply N.eqb_eq in E. congruence.
  - destruct (a =? b); [|done]. simpl in *. apply IH; [done|].
    destruct t as [|h t]; [done|]. by apply not_elem_of_cons in Ht as [_ ?].
Qed.

Lemma occurrence_at_head_startswith s label rest :
  occurrence_at_head s label rest -> startswith s (py "From ") = true.
Proof. intros [-> _]. apply startswith_spec. eauto. Qed.

(** Text without [From ] in it is passed without a match, when what follows
    does not start with a character of [From ]. *)
Lemma source_matches_skip (x t : pystr) labels :
  str_in (py "From ") x = false ->
  match t with [] => True | h :: _ => h ∉ py "From " end ->
  source_matches t labels ->
  source_matches (x ++ t) labels.
Proof.
  intros Hx Ht Hm. induction x as [|c x IH]; [done|].
  cbn [str_in] in Hx. apply orb_false_iff in Hx as [Hhead Hx].
  cbn [app]. apply sm_skip; [|by apply IH].
  intros label rest Ho. apply occurrence_at_head_startswith in Ho.
  change (c :: x ++ t) with ((c :: x) ++ t) in Ho.
  by rewrite startswith_app_false in Ho.
Qed.

Lemma source_matches_skip_char c s labels :
  c <> 70 -> source_matches s labels -> source_matches (c :: s) labels.
Proof.
  intros Hc Hm. apply sm_skip; [|done].
  intros label rest [Heq _]. injection Heq as ->. done.
Qed.

Lemma join_cons_cons sep (p q : pystr) ps :
  join sep (p :: q :: ps) = p ++ sep ++ join sep (q :: ps).
Proof. reflexivity. Qed.

(** The scan of a rendered context finds the source labels of its entries. *)
Lemma rendered_source_matches (entries : list result) :
  Forall citable entries ->
  source_matches (join [NEWLINE; NEWLINE] (render_result <$> entries))
    (get_source <$> entries).
Proof.
  induction 1 as [|e entries (Hne & Hcolon & Hfrom) Hall IH]; [constructor|].
  assert (Hsnip : str_in (py "From ") (SPACE :: get_snippet e) = false).
  { cbn [str_in]. by rewrite Hfrom. }
  rewrite !fmap_cons.
  destruct entries as [|e' entries].
  - cbn [fmap list_fmap join]. unfold render_result.
    eapply (sm_hit _ _ (SPACE :: get_snippet e)).
    + split; [reflexivity | done].
    + rewrite <- (app_nil_r (SPACE :: get_snippet e)).
      apply source_matches_skip; [done..|constructor].
  - rewrite fmap_cons in IH |- *. rewrite join_cons_cons.
    set (rest := join [NEWLINE; NEWLINE] (render_result e' :: (render_result <$> entries))) in *.
    unfold render_result at 1.
    eapply (sm_hit _ _ ((SPACE :: get_snippet e) ++ [NEWLINE; NEWLINE] ++ rest)).
    + split; [|done]. rewrite <- ?app_assoc. reflexivity.
    + apply source_matches_skip; [done| |].
      * cbn. rewrite !elem_of_cons, elem_of_nil. intros [H|[H|[H|[H|[H|[]]]]]]; discriminate.
      * cbn [app]. by do 2 (apply source_matches_skip_char; [done|]).
Qed.

Lemma extract_rendered_sources (search_results : list result) :
  Forall citable (rendered_results search_results) ->
  forall l : pystr,
    l ∈ _extract_sources_from_context (render_context search_results)
    <-> exists r, r ∈ rendered_results search_results /\ l = strip (get_source r).
Proof.
  intros Hall l. rewrite render_context_join.
  change (context_parts search_results)
    with (render_result <$> rendered_results search_results).
  pose proof (rendered_source_matches _ Hall) as Hm.
  pose proof (findall_sources_matches
    (join [NEWLINE; NEWLINE] (render_result <$> rendered_results search_results))) as Hf.
  unfold _extract_sources_from_context.
  rewrite (source_matches_unique _ _ _ Hf Hm).
  rewrite elem_of_elements, elem_of_list_to_set, !list_elem_of_fmap.
  split.
  - intros (label & -> & Hlabel). apply list_elem_of_fmap in Hlabel as (r & -> & Hr).
    eauto.
  - intros (r & Hr & ->). exists (get_source r). split; [done|].
    apply list_elem_of_fmap. eauto.
Qed.








(** ** The ask pipeline *)

Section Ask.
Context {U : PyUnicode} {W : Web} {S : Services}.

Lemma categorize_question_closed question :
  categorize_question question ∈ categories.
Proof.
  unfold categorize_question, categories.
  repeat destruct (any_in _ _); rewrite !elem_of_cons; tauto.
Qed.

(** C8: when [validate_input] rejects the question, [ask] returns the
    validation message as the answer, with no sources, zero processing time
    and the marker "error", which is none of the categories, in place of a
    category; the world is left as it was: no clock reading, no
    classification, no search, no completion call, no log entry and no
    history entry. *)
Theorem ask_rejects_invalid (question : pystr) (include_web_search : bool)
    (w : world) (message : pystr) :
  validate_input question = (false, message) ->
  ask question include_web_search w = (rejection message, w)
  /\ (question_type (ask question include_web_search w).1 ∉ categories)
  /\ calls (ask question include_web_search w).2 = calls w
  /\ conversation_history (ask question include_web_search w).2
     = conversation_history w
  /\ session (ask question include_web_search w).2 = session w
  /\ clock_reads (ask question include_web_search w).2 = clock_reads w.
Proof.
  intros Hv.
  assert (E : ask question include_web_search w = (rejection message, w)).
  { unfold ask. by rewrite Hv. }
  rewrite E. split; [done|]. split; [|done].
  simpl. unfold categories. rewrite !elem_of_cons, elem_of_nil.
  intros [H | [H | [H | [H | [H | []]]]]]; discriminate.
Qed.

(** An accepted question, in contrast, is processed: on a bot that has its
    history the body of [ask] does not raise, the question is classified, the
    completion service of an initialized bot is called, and one turn is
    appended to the history. *)
Lemma ask_body_runs question include_web_search start_time w history :
  conversation_history w = Some history ->
  exists r w',
    ask_body question include_web_search start_time w = (inr r, w')
    /\ question_type r = categorize_question question
    /\ CallCategorize question ∈ calls w'
    /\ (exists t, conversation_history w' = Some (history ++ [t]))
    /\ clock_reads w' = (2 + clock_reads w)%nat.
Proof.
  intros Hh. unfold ask_body, mbind, M_bind, mret, M_ret, lift, load_history.
  destruct include_web_search; simpl;
    unfold _generate_ai_response; simpl;
    destruct (is_initialized w); simpl; rewrite Hh;
    (eexists _, _; split; [reflexivity|]; simpl;
     split; [reflexivity|]; split; [|split; [eexists; reflexivity | reflexivity]]);
    rewrite !elem_of_app, !elem_of_cons; tauto.
Qed.

Lemma ask_accepts_valid question include_web_search w history :
  validate_input question = (true, []) ->
  conversation_history w = Some history ->
  question_type (ask question include_web_search w).1 = categorize_question question
  /\ CallCategorize question ∈ calls (ask question include_web_search w).2
  /\ exists t, conversation_history (ask question include_web_search w).2
               = Some (history ++ [t]).
Proof.
  intros Hv Hh. unfold ask. rewrite Hv. simpl negb. cbv iota.
  destruct (now w) as [start_time w0] eqn:En.
  assert (Hh0 : conversation_history w0 = Some history).
  { injection En as _ <-. exact Hh. }
  destruct (ask_body_runs question include_web_search start_time w0 history Hh0)
    as (r & w' & -> & Hq & Hc & Ht & _).
  simpl. done.
Qed.

End Ask.

Lemma ask_rejects_invalid_witness :
  ask (U := ascii_tables) (W := offline) (S := canned_services)
    (py "hi") true fresh_world
  = (rejection (py "Please enter a more detailed question."), fresh_world).
Proof.
  apply (ask_rejects_invalid (U := ascii_tables) (W := offline)
           (S := canned_services) (py "hi") true fresh_world).
  reflexivity.
Defined.

(** An accepted question end to end, without network: the static table
    gives the context, and the source label comes back out of it. *)
Example ask_distillation :
  let question := py "What is distillation and how does it work?" in
  let '(r, w) :=
    ask (U := ascii_tables) (W := offline) (S := canned_services)
      question true fresh_world in
  get_relevant_context (U := ascii_tables) (W := offline) question
  = py "From Educational: Distillation is a separation process that exploits differences in volatility of components in a liquid mixture."
  /\ question_type r = py "theory"
  /\ sources r = [py "Educational"]
  /\ web_context_used r = Some true
  /\ length <$> conversation_history w = Some 1%nat
  /\ head (calls w) = Some CallTime
  /\ last (calls w) = Some CallAppendHistory.
Proof. vm_compute. repeat split. Qed.

(** The same question to a bot whose configuration failed: the history is
    missing, the append raises, and [ask] answers through its [except]
    branch. *)
Example ask_after_failed_init :
  let question := py "What is distillation and how does it work?" in
  let '(r, w) :=
    ask (U := ascii_tables) (W := offline) (S := canned_services)
      question true (init false fresh_world) in
  question_type r = py "error"
  /\ error r = Some attribute_error
  /\ sources r = []
  /\ conversation_history w = None
  /\ last (calls w) = Some CallTime.
Proof. vm_compute. repeat split. Qed.

(** * Further properties of the code *)

(** ** The interaction log *)

(** X1: [log_interaction] appends one entry, holding the first 100
    characters of the question and the sizes of the response and of the source
    list, and then keeps the last 50 entries: the new log ends with the new
    entry, is an end piece of the old log with the entry appended, and has one
    entry more than before but never more than 50. *)
Theorem log_interaction_keeps_last_50 (question response : pystr)
    (sources : list pystr) (st : session_state) :
  let old := default [] (interaction_log st) in
  exists (entry : log_entry) (log : list log_entry),
    interaction_log (log_interaction question response sources st) = Some log
    /\ log_question entry = take 100 question
    /\ log_response_length entry = length response
    /\ log_sources_count entry = length sources
    /\ log_timestamp entry = default (py "unknown") (current_time st)
    /\ log `suffix_of` (old ++ [entry])
    /\ last log = Some entry
    /\ length log = Nat.min (Datatypes.S (length old)) 50
    /\ current_time (log_interaction question response sources st)
       = current_time st.
Proof.
  intros old. unfold log_interaction. fold old.
  set (entry := {| log_question := take 100 question;
                   log_response_length := length response;
                   log_sources_count := length sources;
                   log_timestamp := default (py "unknown") (current_time st) |}).
  exists entry. eexists. split; [reflexivity|]. cbn [log_question
    log_response_length log_sources_count log_timestamp entry current_time].
  repeat (split; [reflexivity|]).
  assert (Hlen : length (old ++ [entry]) = Datatypes.S (length old))
    by (rewrite length_app; simpl; lia).
  destruct (50 <? length (old ++ [entry]))%nat eqn:E.
  - apply Nat.ltb_lt in E. split; [apply suffix_drop|]. split.
    + rewrite last_lookup, length_drop, lookup_drop, <- last_snoc with (l := old).
      rewrite last_lookup. f_equal. lia.
    + split; [rewrite length_drop; lia | done].
  - apply Nat.ltb_ge in E. split; [done|]. split; [apply last_snoc|].
    split; [lia | done].
Qed.

(** ** Source priority *)

Section SourcePriorityFacts.
Context {U : PyUnicode}.

(** X2: [get_source_priority_score] ranks a url by the first marker its
    lower-cased text contains, in the order .edu, .gov, professional
    organisation, wikipedia; the score is 10, 9, 8, 6 or, without any marker,
    5, so an .edu url scores 10 whatever else it contains. *)
Theorem source_priority_levels (url : pystr) :
  let u := str_lower url in
  let score := get_source_priority_score url in
  (5 <= score <= 10)%Z
  /\ (score = 10%Z <-> substring (py ".edu") u)
  /\ (score = 9%Z <-> ~ substring (py ".edu") u /\ substring (py ".gov") u)
  /\ (score = 8%Z <->
      ~ substring (py ".edu") u /\ ~ substring (py ".gov") u
      /\ mentions professional_orgs u)
  /\ (score = 6%Z <->
      ~ substring (py ".edu") u /\ ~ substring (py ".gov") u
      /\ ~ mentions professional_orgs u /\ substring (py "wikipedia") u)
  /\ (score = 5%Z <->
      ~ substring (py ".edu") u /\ ~ substring (py ".gov") u
      /\ ~ mentions professional_orgs u /\ ~ substring (py "wikipedia") u).
Proof.
  intros u score. unfold score, get_source_priority_score. fold u.
  rewrite <- !str_in_spec, <- !any_in_spec.
  destruct (str_in (py ".edu") u), (str_in (py ".gov") u),
    (any_in professional_orgs u), (str_in (py "wikipedia") u);
    repeat split; try lia; try done; intros; try tauto;
    repeat match goal with H : _ /\ _ |- _ => destruct H end; try done.
Qed.

End SourcePriorityFacts.

(** ** The providers *)

Lemma wikipedia_loop_cons `{W : Web} term terms :
  wikipedia_loop (term :: terms)
  = match session_get (wiki_api ++ term) with
    | HttpStatus code (Some data) =>
        if decide (code = 200%Z) then [wikipedia_result data]
        else wikipedia_loop terms
    | _ => wikipedia_loop terms
    end.
Proof.
  cbn [wikipedia_loop].
  destruct (session_get (wiki_api ++ term)) as [|code [data|]]; [done| |].
  - destruct (decide (code = 200%Z)) as [->|Hne]; [done|].
    destruct code as [|p|p]; try done.
    do 8 (destruct p as [p|p|]; try done).
  - destruct code as [|p|p]; try done.
    do 8 (destruct p as [p|p|]; try done).
Qed.

Lemma wikipedia_loop_hit `{W : Web} term terms data :
  session_get (wiki_api ++ term) = HttpStatus 200 (Some data) ->
  wikipedia_loop (term :: terms) = [wikipedia_result data].
Proof. intros H. rewrite wikipedia_loop_cons, H. by rewrite decide_True. Qed.

Lemma wikipedia_loop_miss `{W : Web} term terms :
  no_summary (wiki_api ++ term) ->
  wikipedia_loop (term :: terms) = wikipedia_loop terms.
Proof.
  intros H. rewrite wikipedia_loop_cons.
  destruct (session_get (wiki_api ++ term)) as [|code [data|]] eqn:E; [done| |done].
  destruct (decide (code = 200%Z)) as [->|]; [|done]. by destruct (H data).
Qed.

Lemma no_summary_dec `{W : Web} (u : pystr) :
  no_summary u \/ exists data, session_get u = HttpStatus 200 (Some data).
Proof.
  unfold no_summary.
  destruct (session_get u) as [|code [data|]] eqn:E; [by left| |by left].
  destruct (decide (code = 200%Z)) as [->|Hne]; [right; eauto|].
  left. intros data' [= ? _]. done.
Qed.

Lemma search_wikipedia_length `{W : Web} query :
  (length (_search_wikipedia query) <= 1)%nat.
Proof.
  unfold _search_wikipedia. cbn [take].
  rewrite !wikipedia_loop_cons. cbn [wikipedia_loop].
  repeat (destruct (session_get _) as [|? [?|]]; try case_decide); simpl; lia.
Qed.

Lemma search_wikipedia_results `{W : Web} query r :
  r ∈ _search_wikipedia query ->
  exists u data,
    session_get u = HttpStatus 200 (Some data) /\ r = wikipedia_result data.
Proof.
  unfold _search_wikipedia. cbn [take].
  destruct (no_summary_dec (wiki_api ++ replace_space_underscore query))
    as [H1 | [d1 H1]].
  - rewrite wikipedia_loop_miss by done.
    destruct (no_summary_dec
                (wiki_api ++ py "Chemical_" ++ replace_space_underscore query))
      as [H2 | [d2 H2]].
    + rewrite wikipedia_loop_miss by done. intros Hin. by apply elem_of_nil in Hin.
    + rewrite (wikipedia_loop_hit _ _ _ H2). intros ->%list_elem_of_singleton. eauto.
  - rewrite (wikipedia_loop_hit _ _ _ H1). intros ->%list_elem_of_singleton. eauto.
Qed.

Lemma wikipedia_loop_requests_cons `{W : Web} term terms :
  wikipedia_loop_requests (term :: terms)
  = match session_get (wiki_api ++ term) with
    | HttpStatus code (Some data) =>
        if decide (code = 200%Z)
        then ([wikipedia_result data], [wiki_api ++ term])
        else ((wikipedia_loop_requests terms).1,
              (wiki_api ++ term) :: (wikipedia_loop_requests terms).2)
    | _ => ((wikipedia_loop_requests terms).1,
            (wiki_api ++ term) :: (wikipedia_loop_requests terms).2)
    end.
Proof.
  cbn [wikipedia_loop_requests].
  destruct (wikipedia_loop_requests terms) as [results requests].
  destruct (session_get (wiki_api ++ term)) as [|code [data|]]; [done| |].
  - destruct (decide (code = 200%Z)) as [->|Hne]; [done|].
    destruct code as [|p|p]; try done.
    do 8 (destruct p as [p|p|]; try done).
  - destruct code as [|p|p]; try done.
    do 8 (destruct p as [p|p|]; try done).
Qed.

Lemma wikipedia_loop_requests_hit `{W : Web} term terms data :
  session_get (wiki_api ++ term) = HttpStatus 200 (Some data) ->
  wikipedia_loop_requests (term :: terms)
  = ([wikipedia_result data], [wiki_api ++ term]).
Proof.
  intros H. rewrite wikipedia_loop_requests_cons, H. by rewrite decide_True.
Qed.

Lemma wikipedia_loop_requests_miss `{W : Web} term terms :
  no_summary (wiki_api ++ term) ->
  wikipedia_loop_requests (term :: terms)
  = ((wikipedia_loop_requests terms).1,
     (wiki_api ++ term) :: (wikipedia_loop_requests terms).2).
Proof.
  intros H. rewrite wikipedia_loop_requests_cons.
  destruct (session_get (wiki_api ++ term)) as [|code [data|]] eqn:E; [done| |done].
  destruct (decide (code = 200%Z)) as [->|]; [|done]. by destruct (H data).
Qed.

Lemma wikipedia_loop_requests_results `{W : Web} terms :
  (wikipedia_loop_requests terms).1 = wikipedia_loop terms.
Proof.
  induction terms as [|term terms IH]; [done|].
  rewrite wikipedia_loop_requests_cons, wikipedia_loop_cons.
  destruct (session_get (wiki_api ++ term)) as [|code [data|]]; [done| |done].
  by destruct (decide (code = 200%Z)).
Qed.

(** X3: [_search_wikipedia] requests the query with underscores for spaces
    and, only when that request gives no summary, the same with "Chemical_" in
    front; the first summary found becomes the one result, labelled Wikipedia
    with priority 8.  It never returns more than one result, returns none when
    both requests fail, and never requests the third search term; two networks
    that answer those two requests alike give the same result. *)
Theorem search_wikipedia_first_summary :
  (forall (W : Web) (query : pystr),
     let term := replace_space_underscore query in
     let requests := (_search_wikipedia_requests query).2 in
     (_search_wikipedia_requests query).1 = _search_wikipedia query
     /\ (length (_search_wikipedia query) <= 1)%nat
     /\ (forall data,
          session_get (wiki_api ++ term) = HttpStatus 200 (Some data) ->
          _search_wikipedia query = [wikipedia_result data]
          /\ requests = [wiki_api ++ term])
     /\ (forall data,
          no_summary (wiki_api ++ term) ->
          session_get (wiki_api ++ py "Chemical_" ++ term)
            = HttpStatus 200 (Some data) ->
          _search_wikipedia query = [wikipedia_result data]
          /\ requests = [wiki_api ++ term; wiki_api ++ py "Chemical_" ++ term])
     /\ (no_summary (wiki_api ++ term) ->
         no_summary (wiki_api ++ py "Chemical_" ++ term) ->
         _search_wikipedia query = []
         /\ requests = [wiki_api ++ term; wiki_api ++ py "Chemical_" ++ term])
     /\ (wiki_api ++ term ++ py "_engineering") ∉ requests)
  /\ (forall (W1 W2 : Web) (query : pystr),
        let term := replace_space_underscore query in
        session_get (Web := W1) (wiki_api ++ term)
          = session_get (Web := W2) (wiki_api ++ term) ->
        session_get (Web := W1) (wiki_api ++ py "Chemical_" ++ term)
          = session_get (Web := W2) (wiki_api ++ py "Chemical_" ++ term) ->
        _search_wikipedia (W := W1) query = _search_wikipedia (W := W2) query).
Proof.
  split.
  - intros W query term requests.
    split; [apply wikipedia_loop_requests_results|].
    split; [apply search_wikipedia_length|].
    unfold requests, _search_wikipedia_requests, _search_wikipedia.
    fold term. cbn [take].
    split.
    { intros data H. rewrite (wikipedia_loop_requests_hit _ _ _ H).
      split; [by apply wikipedia_loop_hit | done]. }
    split.
    { intros data H1 H2. rewrite wikipedia_loop_miss by done.
      rewrite wikipedia_loop_requests_miss by done.
      rewrite (wikipedia_loop_requests_hit _ _ _ H2).
      split; [by apply wikipedia_loop_hit | done]. }
    split.
    { intros H1 H2. rewrite !wikipedia_loop_miss by done.
      by rewrite !wikipedia_loop_requests_miss by done. }
    assert (Hsub : forall u,
      u ∈ (wikipedia_loop_requests [term; py "Chemical_" ++ term]).2 ->
      u = wiki_api ++ term \/ u = wiki_api ++ py "Chemical_" ++ term).
    { intros u. rewrite !wikipedia_loop_requests_cons.
      cbn [wikipedia_loop_requests fst snd].
      repeat (destruct (session_get _) as [|? [?|]]; try case_decide);
        cbn [fst snd]; rewrite ?elem_of_cons, ?elem_of_nil; tauto. }
    intros [H|H]%Hsub.
    + apply app_inv_head in H. apply (f_equal length) in H.
      rewrite length_app in H. simpl in H. lia.
    + apply app_inv_head in H. apply (f_equal length) in H.
      rewrite !length_app in H. simpl in H. lia.
  - intros W1 W2 query term H1 H2.
    unfold _search_wikipedia. fold term. cbn [take].
    rewrite !wikipedia_loop_cons. rewrite H1, H2. reflexivity.
Qed.

Lemma NoDup_snd_key {K V} (l : list (K * V)) k k' v :
  NoDup (snd <$> l) -> (k, v) ∈ l -> (k', v) ∈ l -> k = k'.
Proof.
  induction l as [|[k0 v0] l IH]; intros Hnd Hk Hk'.
  - by apply elem_of_nil in Hk.
  - rewrite fmap_cons in Hnd. apply NoDup_cons in Hnd as [Hv0 Hnd].
    apply elem_of_cons in Hk as [Hk|Hk]; apply elem_of_cons in Hk' as [Hk'|Hk'];
      simplify_eq.
    + done.
    + destruct Hv0. apply list_elem_of_fmap. by exists (k', v0).
    + destruct Hv0. apply list_elem_of_fmap. by exists (k, v0).
    + by apply IH.
Qed.

(** The urls of the built-in table are distinct and its entries complete. *)
Lemma educational_content_urls :
  NoDup (get_url <$> (snd <$> educational_content)).
Proof. apply (bool_decide_unpack _). vm_compute. exact I. Qed.

Lemma educational_content_complete :
  Forall (fun r => get_source r = py "Educational" /\ get_priority r = 7%Z
                   /\ get_snippet r <> [] /\ get_url r <> [])
    (snd <$> educational_content).
Proof. repeat constructor; done. Qed.

Lemma search_educational_sublist `{U : PyUnicode} query :
  _search_educational_sites query `sublist_of` (snd <$> educational_content).
Proof.
  unfold _search_educational_sites. apply fmap_sublist, sublist_filter.
Qed.

Lemma search_educational_complete `{U : PyUnicode} query :
  Forall (fun r => get_source r = py "Educational" /\ get_priority r = 7%Z
                   /\ get_snippet r <> [] /\ get_url r <> [])
    (_search_educational_sites query).
Proof.
  apply Forall_forall. intros r Hr.
  pose proof educational_content_complete as Hall.
  rewrite Forall_forall in Hall. apply Hall.
  eapply elem_of_sublist; [exact Hr | apply search_educational_sublist].
Qed.

Lemma search_educational_length `{U : PyUnicode} query :
  (length (_search_educational_sites query) <= 3)%nat.
Proof.
  pose proof (sublist_length _ _ (search_educational_sublist query)) as H.
  by rewrite length_fmap in H.
Qed.

(** X4: [_search_educational_sites] returns, in the table's order, the
    built-in entry of every topic that occurs in the lower-cased query and
    nothing else: at most three results, each labelled Educational with
    priority 7, a snippet and a url, no url twice. *)
Theorem search_educational_sites_spec `{U : PyUnicode} (query : pystr) :
  let rs := _search_educational_sites query in
  rs `sublist_of` (snd <$> educational_content)
  /\ (forall topic content,
       (topic, content) ∈ educational_content ->
       (content ∈ rs <-> substring topic (str_lower query)))
  /\ Forall (fun r => get_source r = py "Educational" /\ get_priority r = 7%Z
                      /\ get_snippet r <> [] /\ get_url r <> []) rs
  /\ NoDup (get_url <$> rs)
  /\ (length rs <= 3)%nat.
Proof.
  intros rs. pose proof (search_educational_sublist query) as Hsub. fold rs in Hsub.
  split; [done|]. split.
  { intros topic content Hin. rewrite <- str_in_spec.
    unfold rs, _search_educational_sites.
    rewrite list_elem_of_fmap. split.
    - intros ([topic' content'] & -> & Hf).
      apply list_elem_of_filter in Hf as [Hp Hin']. simpl in *.
      assert (topic' = topic) as <-; [|done].
      eapply (NoDup_snd_key educational_content); [|done..].
      apply (NoDup_fmap_1 get_url), educational_content_urls.
    - intros Hp. exists (topic, content). split; [done|].
      apply list_elem_of_filter. done. }
  split; [apply search_educational_complete|].
  split.
  { apply (sublist_NoDup _ (get_url <$> (snd <$> educational_content)));
      [apply educational_content_urls | by apply fmap_sublist]. }
  apply search_educational_length.
Qed.

(** ** Searching *)

Lemma dedup_loop_length results seen :
  (length (dedup_loop results seen []) <= length results)%nat.
Proof. apply sublist_length, dedup_loop_sublist. Qed.

Lemma deduplicate_results_length results :
  (length (_deduplicate_results results) <= length results)%nat.
Proof.
  unfold _deduplicate_results. rewrite sorted_desc_perm. apply dedup_loop_length.
Qed.

Lemma deduplicate_results_elem results r :
  r ∈ _deduplicate_results results -> r ∈ results /\ get_url r <> [].
Proof.
  unfold _deduplicate_results. rewrite sorted_desc_perm. intros Hr. split.
  - eapply elem_of_sublist; [exact Hr | apply dedup_loop_sublist].
  - by apply dedup_loop_elem in Hr as (_ & _ & _ & Hne & _).
Qed.

Lemma deduplicate_results_nodup results :
  NoDup (get_url <$> _deduplicate_results results).
Proof.
  unfold _deduplicate_results. rewrite sorted_desc_perm. apply dedup_loop_nodup.
Qed.

Lemma insert_desc_front {A} (key : A -> Z) x l :
  Forall (fun y => (key y <= key x)%Z) l -> insert_desc key x l = x :: l.
Proof.
  intros [|y l' Hy _]; [done|]. simpl.
  by rewrite (proj2 (Z.ltb_ge _ _) Hy).
Qed.

Lemma sorted_desc_id {A} (key : A -> Z) l :
  StronglySorted (desc key) l -> sorted_desc key l = l.
Proof.
  induction 1 as [|x l _ IH Hx]; [done|].
  simpl. rewrite IH. by apply insert_desc_front.
Qed.

Lemma dedup_loop_id results seen :
  NoDup (get_url <$> results) ->
  Forall (fun r => get_url r <> [] /\ get_url r ∉ seen) results ->
  dedup_loop results seen [] = results.
Proof.
  revert seen; induction results as [|r results IH]; intros seen Hnd Hall; [done|].
  rewrite fmap_cons in Hnd. apply NoDup_cons in Hnd as [Hr Hnd].
  apply Forall_cons in Hall as [[Hne Hns] Hall].
  rewrite dedup_loop_cons, (proj2 (keep_test_true _ _)) by done.
  f_equal. apply IH; [done|].
  apply Forall_forall. intros r' Hr'. rewrite Forall_forall in Hall.
  destruct (Hall r' Hr') as [Hne' Hns']. split; [done|].
  rewrite not_elem_of_union, elem_of_singleton. split; [|done].
  intros Heq. apply Hr. rewrite <- Heq. apply list_elem_of_fmap. by exists r'.
Qed.

(** X5: [_deduplicate_results] is idempotent: a list it returned has
    distinct non-empty urls and is sorted, so deduplicating and sorting it
    again changes nothing. *)
Theorem deduplicate_results_idempotent (results : list result) :
  _deduplicate_results (_deduplicate_results results)
  = _deduplicate_results results.
Proof.
  set (d := _deduplicate_results results).
  assert (Hsorted : StronglySorted (desc get_priority) d)
    by apply sorted_desc_sorted.
  unfold _deduplicate_results at 1.
  rewrite dedup_loop_id.
  - by apply sorted_desc_id.
  - apply deduplicate_results_nodup.
  - apply Forall_forall. intros r Hr.
    apply deduplicate_results_elem in Hr as [_ Hne].
    split; [done | apply not_elem_of_empty].
Qed.

Section SearchWeb.
Context {U : PyUnicode} {W : Web}.

Lemma search_web_elem (query : pystr) r :
  r ∈ search_web query ->
  get_url r <> []
  /\ ((exists u data,
         session_get u = HttpStatus 200 (Some data) /\ r = wikipedia_result data)
      \/ r ∈ _search_educational_sites (query ++ py " chemical engineering")).
Proof.
  unfold search_web, _scrape_search_results, scrape_sources. intros Hr.
  apply subseteq_take in Hr.
  apply deduplicate_results_elem in Hr as [Hr Hne]. split; [done|].
  cbn [concat] in Hr. rewrite app_nil_r in Hr.
  apply elem_of_app in Hr as [Hr | Hr]; [left | by right].
  by apply search_wikipedia_results in Hr.
Qed.

Lemma search_web_kind (query : pystr) r :
  r ∈ search_web query ->
  (get_source r = py "Wikipedia" /\ get_priority r = 8%Z)
  \/ (get_source r = py "Educational" /\ get_priority r = 7%Z).
Proof.
  intros [_ [(u & data & _ & ->) | Hr]]%search_web_elem; [by left | right].
  pose proof (search_educational_complete (query ++ py " chemical engineering")) as H.
  rewrite Forall_forall in H. by destruct (H r Hr) as (? & ? & _).
Qed.

(** X6: with its two providers, [search_web] returns all of the
    deduplicated, sorted pool; the cut to [max_results] never removes a result,
    since the pool has at most four.  The results have distinct non-empty urls,
    each is a Wikipedia summary of priority 8 or a built-in entry of priority
    7, and a Wikipedia summary that has a url is the first result. *)
Theorem search_web_results (query : pystr) :
  let enhanced_query := query ++ py " chemical engineering" in
  let rs := search_web query in
  rs = _deduplicate_results
         (_search_wikipedia enhanced_query
          ++ _search_educational_sites enhanced_query)
  /\ (length rs <= 4)%nat
  /\ NoDup (get_url <$> rs)
  /\ Forall (fun r =>
       get_url r <> []
       /\ ((get_source r = py "Wikipedia" /\ get_priority r = 8%Z)
           \/ (get_source r = py "Educational" /\ get_priority r = 7%Z))) rs
  /\ (forall r, r ∈ _search_wikipedia enhanced_query -> get_url r <> [] ->
        head rs = Some r).
Proof.
  intros q rs.
  set (wiki := _search_wikipedia q). set (edu := _search_educational_sites q).
  pose proof (search_wikipedia_length q) as Hw. fold wiki in Hw.
  pose proof (search_educational_complete q) as Hedu.
  pose proof (search_educational_length q) as He.
  fold edu in Hedu, He.
  assert (Hrs : rs = _deduplicate_results (wiki ++ edu)).
  { unfold rs, search_web, _scrape_search_results, scrape_sources. fold q wiki edu.
    cbn [concat]. rewrite app_nil_r. apply take_ge.
    etrans; [apply deduplicate_results_length|].
    rewrite length_app. unfold max_results. lia. }
  split; [done|]. rewrite Hrs.
  split.
  { etrans; [apply deduplicate_results_length|]. rewrite length_app. lia. }
  split; [apply deduplicate_results_nodup|].
  split.
  { apply Forall_forall. intros r Hr.
    apply deduplicate_results_elem in Hr as [Hin Hne]. split; [done|].
    apply elem_of_app in Hin as [Hin | Hin].
    - left. apply search_wikipedia_results in Hin as (u & data & _ & ->). done.
    - right. rewrite Forall_forall in Hedu. by destruct (Hedu r Hin) as (? & ? & _). }
  intros r Hr Hne.
  destruct (search_wikipedia_results _ _ Hr) as (u & data & _ & Hdata).
  assert (wiki = [r]) as ->.
  { destruct wiki as [|r0 [|r1 wiki]]; simpl in Hw; [| |lia].
    - by apply elem_of_nil in Hr.
    - by apply list_elem_of_singleton in Hr as ->. }
  subst r.
  unfold _deduplicate_results. cbn [app].
  rewrite dedup_loop_cons, (proj2 (keep_test_true _ _))
    by (split; [done | apply not_elem_of_empty]).
  cbn [sorted_desc]. rewrite insert_desc_front; [done|].
  apply Forall_forall. intros y Hy. rewrite sorted_desc_perm in Hy.
  eapply elem_of_sublist in Hy; [|apply dedup_loop_sublist].
  rewrite Forall_forall in Hedu. destruct (Hedu y Hy) as (_ & -> & _). done.
Qed.

End SearchWeb.

(** ** Citations *)

Lemma rendered_results_sublist search_results :
  rendered_results search_results `sublist_of` search_results.
Proof.
  unfold rendered_results. etrans; [apply sublist_filter | apply sublist_take].
Qed.

Lemma Forall_rendered_results (P : result -> Prop) search_results :
  Forall P search_results -> Forall P (rendered_results search_results).
Proof.
  rewrite !Forall_forall. intros H r Hr. apply H.
  eapply elem_of_sublist; [exact Hr | apply rendered_results_sublist].
Qed.

Lemma educational_content_citable : Forall citable (snd <$> educational_content).
Proof.
  apply Forall_forall. intros r Hr. unfold educational_content in Hr.
  rewrite !fmap_cons, fmap_nil, !elem_of_cons, elem_of_nil in Hr.
  destruct Hr as [-> | [-> | [-> | []]]];
    (split; [done|]; split; [|vm_compute; reflexivity]);
    apply (bool_decide_unpack _); vm_compute; exact I.
Qed.

(** X7: rendering and extraction fit together.  When every result that
    [get_relevant_context] renders has a non-empty source label without colon
    and a snippet that does not contain "From ", the sources extracted from
    the rendered context are exactly the trimmed source labels of the rendered
    results. *)
Theorem citations_round_trip (search_results : list result) :
  Forall citable (rendered_results search_results) ->
  forall l : pystr,
    l ∈ _extract_sources_from_context (render_context search_results)
    <-> exists r, r ∈ rendered_results search_results /\ l = strip (get_source r).
Proof. apply extract_rendered_sources. Qed.

Lemma citations_round_trip_witness :
  py "Educational"
    ∈ _extract_sources_from_context (render_context (snd <$> educational_content))
  <-> exists r, r ∈ rendered_results (snd <$> educational_content)
                /\ py "Educational" = strip (get_source r).
Proof.
  apply (citations_round_trip (snd <$> educational_content)).
  apply Forall_rendered_results, educational_content_citable.
Defined.

Section ContextSources.
Context {U : PyUnicode} {W : Web}.

Lemma search_web_citable (query : pystr) :
  plain_summaries -> Forall citable (search_web query).
Proof.
  intros Hplain. apply Forall_forall. intros r Hr.
  apply search_web_elem in Hr as [_ [(u & data & Hget & ->) | Hr]].
  - split; [done|]. split; [|by apply (Hplain u)].
    apply (bool_decide_unpack _). vm_compute. exact I.
  - pose proof educational_content_citable as Hall.
    rewrite Forall_forall in Hall. apply Hall.
    eapply elem_of_sublist; [exact Hr | apply search_educational_sublist].
Qed.

(** X8: when no summary the network returns contains the text "From ",
    every source [ask] can cite for a query, that is every source extracted
    from [get_relevant_context], is one of the provider labels "Wikipedia" and
    "Educational". *)
Theorem context_sources_are_provider_labels (query l : pystr) :
  plain_summaries ->
  l ∈ _extract_sources_from_context (get_relevant_context query) ->
  l = py "Wikipedia" \/ l = py "Educational".
Proof.
  intros Hplain Hl. unfold get_relevant_context in Hl.
  pose proof (search_web_citable query Hplain) as Hall.
  apply extract_rendered_sources in Hl; [|by apply Forall_rendered_results].
  destruct Hl as (r & Hr & ->).
  eapply elem_of_sublist in Hr; [|apply rendered_results_sublist].
  destruct (search_web_kind query r Hr) as [[-> _] | [-> _]];
    [left | right]; reflexivity.
Qed.

End ContextSources.

Lemma canned_web_plain : plain_summaries (W := canned_web).
Proof. intros u data [= <-]. vm_compute. reflexivity. Qed.

Lemma context_sources_witness :
  py "Wikipedia" = py "Wikipedia" \/ py "Wikipedia" = py "Educational".
Proof.
  apply (context_sources_are_provider_labels (U := ascii_tables) (W := canned_web)
           (py "How does distillation work?") (py "Wikipedia")).
  - exact canned_web_plain.
  - vm_compute. apply list_elem_of_In. simpl. tauto.
Defined.

(** ** The completion call and the ask pipeline *)

Section AskFacts.
Context {U : PyUnicode} {W : Web} {S : Services}.

(** X9: [_generate_ai_response] always returns a non-empty text.  A bot
    that is not initialized answers with its fixed message without calling the
    completion service; an initialized bot calls the service exactly once, with
    the composed prompt, and returns the service's text when that is not empty
    and a fixed or error message otherwise. *)
Theorem generate_ai_response_never_empty
    (question question_type web_context : pystr) (w : world) :
  let prompt := get_chemE_prompt question question_type web_context in
  let out := _generate_ai_response question question_type web_context w in
  out.1 <> []
  /\ (is_initialized w = false -> out.2 = w)
  /\ (is_initialized w = true ->
      calls out.2 = calls w ++ [CallGenerate prompt]
      /\ conversation_history out.2 = conversation_history w
      /\ session out.2 = session w
      /\ clock_reads out.2 = clock_reads w)
  /\ (forall text,
        is_initialized w = true -> generate_content prompt = inr text ->
        text <> [] -> out.1 = text).
Proof.
  intros prompt out. unfold out, _generate_ai_response. fold prompt.
  destruct (is_initialized w); cbn [negb fst snd record_call].
  - split.
    + destruct (generate_content prompt) as [e|[|c text]]; done.
    + split; [done|]. split; [done|].
      intros text _ -> Hne. by destruct text.
  - repeat split; done.
Qed.

Lemma generate_ai_response_frame
    (question question_type web_context : pystr) (w : world) :
  let out := _generate_ai_response question question_type web_context w in
  is_initialized out.2 = is_initialized w
  /\ conversation_history out.2 = conversation_history w
  /\ session out.2 = session w
  /\ clock_reads out.2 = clock_reads w
  /\ calls out.2
     = calls w
       ++ (if is_initialized w
           then [CallGenerate (get_chemE_prompt question question_type web_context)]
           else []).
Proof.
  unfold _generate_ai_response.
  destruct (is_initialized w) eqn:E; cbn [negb fst snd record_call is_initialized
    conversation_history session clock_reads calls].
  - done.
  - by rewrite app_nil_r.
Qed.

(** One run of [ask] on an accepted question, step by step: with the
    history the turn is appended, without it the [except] branch answers. *)
Lemma ask_accepted_run (question : pystr) (include_web_search : bool) (w : world) :
  (validate_input question).1 = true ->
  exists (web_context ai_response : pystr) (w0 w1 : world),
    let sources :=
      match web_context with
      | [] => []
      | _ => _extract_sources_from_context web_context
      end in
    web_context
      = (if include_web_search then get_relevant_context question else [])
    /\ w0 = {| is_initialized := is_initialized w;
               conversation_history := conversation_history w;
               session := session w;
               clock_reads := Datatypes.S (clock_reads w);
               calls := calls w ++ [CallTime; CallCategorize question]
                        ++ (if include_web_search then [CallSearch question] else []) |}
    /\ _generate_ai_response question (categorize_question question) web_context w0
       = (ai_response, w1)
    /\ ask question include_web_search w
       = match conversation_history w1 with
         | Some history =>
             ({| answer := format_response_for_display ai_response;
                 sources := sources;
                 question_type := categorize_question question;
                 processing_time :=
                   (time_time (clock_reads w1) - time_time (clock_reads w))%Z;
                 web_context_used := Some (negb (bool_decide (web_context = [])));
                 error := None |},
              {| is_initialized := is_initialized w1;
                 conversation_history :=
                   Some (history
                         ++ [ {| turn_question := question;
                                 turn_answer := format_response_for_display ai_response;
                                 turn_question_type := categorize_question question;
                                 turn_sources := sources;
                                 turn_timestamp :=
                                   time_time (Datatypes.S (clock_reads w1)) |} ]);
                 session := log_interaction question ai_response sources (session w1);
                 clock_reads := Datatypes.S (Datatypes.S (clock_reads w1));
                 calls := calls w1 ++ [CallTime; CallLog; CallTime; CallAppendHistory] |})
         | None =>
             ({| answer :=
                   py "I apologize, but I encountered an error while processing your question: "
                     ++ attribute_error;
                 sources := [];
                 question_type := py "error";
                 processing_time :=
                   (time_time (Datatypes.S (clock_reads w1))
                    - time_time (clock_reads w))%Z;
                 web_context_used := None;
                 error := Some attribute_error |},
              {| is_initialized := is_initialized w1;
                 conversation_history := None;
                 session := log_interaction question ai_response sources (session w1);
                 clock_reads := Datatypes.S (Datatypes.S (clock_reads w1));
                 calls := calls w1 ++ [CallTime; CallLog; CallTime] |})
         end.
Proof.
  intros Hv. unfold ask.
  destruct (validate_input question) as [is_valid message]. simpl in Hv. subst is_valid.
  cbn [negb].
  unfold ask_body, mbind, M_bind, mret, M_ret, lift, now, record_call, load_history.
  destruct include_web_search;
    cbn [is_initialized conversation_history session clock_reads calls].
  - rewrite <- !app_assoc. cbn [app].
    destruct (_generate_ai_response _ _ _ _) as [a w'] eqn:E.
    eexists _, a, _, w'. split; [reflexivity|]. split; [reflexivity|].
    split; [exact E|]. cbn [do_log_interaction append_history is_initialized
      conversation_history session clock_reads calls].
    destruct (conversation_history w'); cbn [is_initialized
      conversation_history session clock_reads calls];
      rewrite <- !app_assoc; reflexivity.
  - rewrite <- !app_assoc. cbn [app].
    destruct (_generate_ai_response _ _ _ _) as [a w'] eqn:E.
    eexists _, a, _, w'. split; [reflexivity|]. split; [reflexivity|].
    split; [exact E|]. cbn [do_log_interaction append_history is_initialized
      conversation_history session clock_reads calls].
    destruct (conversation_history w'); cbn [is_initialized
      conversation_history session clock_reads calls];
      rewrite <- !app_assoc; reflexivity.
Qed.

Lemma categorize_question_not_error (question : pystr) :
  categorize_question question <> py "error".
Proof.
  unfold categorize_question. repeat destruct (any_in _ _); discriminate.
Qed.

(** X10: on an accepted question a bot that has its history reads the clock,
    classifies, searches when asked to, calls the completion service if it is
    initialized, reads the clock, logs, reads the clock and appends to the
    history, in this order.  [ask] returns the category of
    [categorize_question] and no error; the one turn it appends to the history
    holds the question and the answer, category and sources it returns; the
    processing time is the second clock reading minus the first.  Without web
    search there are no sources, and sources are only returned with a
    context. *)
Theorem ask_records_the_turn (question : pystr) (include_web_search : bool)
    (w : world) (history : list turn) :
  (validate_input question).1 = true ->
  conversation_history w = Some history ->
  let r := (ask question include_web_search w).1 in
  let w' := (ask question include_web_search w).2 in
  let web_context :=
    if include_web_search then get_relevant_context question else [] in
  question_type r = categorize_question question
  /\ error r = None
  /\ (exists t,
        conversation_history w' = Some (history ++ [t])
        /\ turn_question t = question
        /\ turn_answer t = answer r
        /\ turn_question_type t = question_type r
        /\ turn_sources t = sources r
        /\ turn_timestamp t = time_time (2 + clock_reads w))
  /\ processing_time r
     = (time_time (1 + clock_reads w) - time_time (clock_reads w))%Z
  /\ clock_reads w' = (3 + clock_reads w)%nat
  /\ calls w'
     = calls w ++ [CallTime; CallCategorize question]
       ++ (if include_web_search then [CallSearch question] else [])
       ++ (if is_initialized w
           then [CallGenerate
                   (get_chemE_prompt question (categorize_question question)
                      web_context)]
           else [])
       ++ [CallTime; CallLog; CallTime; CallAppendHistory]
  /\ web_context_used r = Some (negb (bool_decide (web_context = [])))
  /\ (include_web_search = false -> sources r = [])
  /\ (sources r <> [] -> web_context_used r = Some true).
Proof.
  intros Hv Hh r w' web_context.
  destruct (ask_accepted_run question include_web_search w Hv)
    as (ctx & ai & w0 & w1 & Hctx & Hw0 & Hgen & Hask).
  fold web_context in Hctx. subst ctx.
  pose proof (generate_ai_response_frame question (categorize_question question)
                web_context w0) as Hframe.
  rewrite Hgen in Hframe. cbn [fst snd] in Hframe.
  destruct Hframe as (Hinit & Hhist & Hsess & Hclock & Hcalls).
  subst w0. cbn [is_initialized conversation_history session clock_reads calls]
    in Hinit, Hhist, Hsess, Hclock, Hcalls.
  rewrite Hhist, Hh in Hask.
  unfold r, w'. rewrite Hask. cbn [fst snd question_type error answer sources
    processing_time web_context_used conversation_history clock_reads calls].
  rewrite Hclock, Hcalls.
  split; [done|]. split; [done|].
  split; [eexists; split; [reflexivity|]; done|].
  split; [done|]. split; [done|].
  split; [by rewrite <- !app_assoc|].
  split; [done|].
  split.
  - intros ->. done.
  - intros Hne. destruct web_context; done.
Qed.

(** X11: whatever the question, the `question_type` [ask] returns is one of
    the five categories or the marker "error", and it is the marker exactly
    when validation rejects the question or the bot has no history.  On a bot
    that has its history [ask] only ever appends to it: one turn when the
    question is accepted, nothing when it is rejected.  On a bot without
    history, which is what a failed [__init__] leaves, [ask] does not create
    one: an accepted question is still logged and answered, from the [except]
    branch, with the marker, no sources and the text of the attribute error. *)
Theorem ask_history_append_only (question : pystr) (include_web_search : bool)
    (w : world) :
  let r := (ask question include_web_search w).1 in
  let w' := (ask question include_web_search w).2 in
  question_type r ∈ py "error" :: categories
  /\ (question_type r = py "error"
      <-> (validate_input question).1 = false \/ conversation_history w = None)
  /\ (forall history, conversation_history w = Some history ->
      exists new,
        conversation_history w' = Some (history ++ new)
        /\ length new = (if (validate_input question).1 then 1 else 0)%nat)
  /\ (conversation_history w = None ->
      conversation_history w' = None
      /\ ((validate_input question).1 = true ->
          error r = Some attribute_error
          /\ answer r
             = py "I apologize, but I encountered an error while processing your question: "
                 ++ attribute_error
          /\ sources r = []
          /\ clock_reads w' = (3 + clock_reads w)%nat
          /\ exists ai_response sources,
               session w' = log_interaction question ai_response sources (session w)))
  /\ is_initialized w' = is_initialized w
  /\ conversation_history (init false w) = None
  /\ conversation_history (init true w) = Some [].
Proof.
  intros r w'.
  destruct (validate_input question).1 eqn:Hv.
  - destruct (ask_accepted_run question include_web_search w Hv)
      as (ctx & ai & w0 & w1 & Hctx & Hw0 & Hgen & Hask).
    pose proof (generate_ai_response_frame question (categorize_question question)
                  ctx w0) as Hframe.
    rewrite Hgen in Hframe. cbn [fst snd] in Hframe.
    destruct Hframe as (Hinit & Hhist & Hsess & Hclock & _).
    subst w0. cbn [is_initialized conversation_history session clock_reads]
      in Hinit, Hhist, Hsess, Hclock.
    rewrite Hhist in Hask. unfold r, w'. rewrite Hask.
    destruct (conversation_history w) as [history|];
      cbn [fst snd question_type conversation_history is_initialized error
           answer sources session clock_reads].
    + split; [apply elem_of_cons; right; apply categorize_question_closed|].
      split.
      { split; [intros H; by apply categorize_question_not_error in H|].
        intros [H|H]; done. }
      split.
      { intros ? [= <-]. eexists [_]. split; reflexivity. }
      split; [done|]. split; [done|]. done.
    + split; [apply list_elem_of_here|].
      split; [split; [by right | done]|].
      split; [done|].
      split.
      { intros _. split; [done|]. intros _.
        split; [done|]. split; [done|]. split; [done|].
        split; [by rewrite Hclock|].
        eexists ai, _. by rewrite Hsess. }
      split; [done|]. done.
  - assert (Hask : ask question include_web_search w
                   = (rejection (validate_input question).2, w)).
    { unfold ask. destruct (validate_input question) as [v m].
      simpl in Hv. by subst v. }
    unfold r, w'. rewrite Hask. cbn [fst snd rejection question_type].
    split; [apply list_elem_of_here|].
    split; [split; [by left | done]|].
    split.
    { intros history ->. exists []. by rewrite app_nil_r. }
    split; [by intros ->|]. split; [done|]. done.
Qed.

End AskFacts.

Lemma ask_records_the_turn_witness :
  question_type
    (ask (U := ascii_tables) (W := offline) (S := canned_services)
       (py "How do I size a heat exchanger?") true fresh_world).1
  = py "design".
Proof.
  apply (ask_records_the_turn (U := ascii_tables) (W := offline)
           (S := canned_services) (py "How do I size a heat exchanger?") true
           fresh_world []).
  - vm_compute. reflexivity.
  - reflexivity.
Defined.

(** ** Validation, once more *)

Lemma lstrip_length s : (length (lstrip s) <= length s)%nat.
Proof.
  induction s as [|c s IH]; simpl; [lia|]. destruct (is_space c); simpl; lia.
Qed.

Lemma rstrip_length s : (length (rstrip s) <= length s)%nat.
Proof.
  induction s as [|c s IH]; simpl; [lia|].
  destruct (rstrip s); [destruct (is_space c)|]; simpl in *; lia.
Qed.

Lemma strip_length s : (length (strip s) <= length s)%nat.
Proof.
  unfold strip. etrans; [apply lstrip_length | apply rstrip_length].
Qed.

(** X12: [validate_input] accepts a question exactly when it returns the
    empty message, so a rejection always carries one of its four messages; an
    accepted question has between 3 and 1000 characters, at least 3 of them
    left after trimming, and no disallowed token in its lower-cased text. *)
Theorem validate_input_accepted_bounds `{U : PyUnicode} (question : pystr) :
  ((validate_input question).1 = true <-> (validate_input question).2 = [])
  /\ ((validate_input question).1 = false ->
      (validate_input question).2 ∈ [msg_empty; msg_short; msg_long; msg_genuine])
  /\ ((validate_input question).1 = true ->
      (3 <= length (strip question))%nat
      /\ (3 <= length question <= 1000)%nat
      /\ ~ mentions inappropriate_words (str_lower question)).
Proof.
  unfold validate_input.
  destruct (_ || _) eqn:E1.
  { cbn [fst snd]. split; [done|]. split; [|done].
    intros _. apply list_elem_of_here. }
  destruct (length (strip question) <? 3)%nat eqn:E2.
  { cbn [fst snd]. split; [done|]. split; [|done].
    intros _. rewrite !elem_of_cons. tauto. }
  destruct (1000 <? length question)%nat eqn:E3.
  { cbn [fst snd]. split; [done|]. split; [|done].
    intros _. rewrite !elem_of_cons. tauto. }
  destruct (any_in inappropriate_words (str_lower question)) eqn:E4.
  { cbn [fst snd]. split; [done|]. split; [|done].
    intros _. rewrite !elem_of_cons. tauto. }
  cbn [fst snd]. split; [done|]. split; [done|]. intros _.
  apply Nat.ltb_ge in E2, E3. apply any_in_false in E4.
  pose proof (strip_length question). repeat split; [lia..|done].
Qed.

(** ** Statistics *)

Lemma count_question_types_lookup (history : list turn) (m : gmap pystr nat)
    (t : pystr) :
  default 0%nat (count_question_types history m !! t)
  = (default 0%nat (m !! t) + turns_of_type t history)%nat.
Proof.
  revert m; induction history as [|c history IH]; intros m.
  - unfold turns_of_type. simpl. lia.
  - cbn [count_question_types]. rewrite IH. unfold turns_of_type.
    rewrite filter_cons, lookup_insert.
    destruct (decide (turn_question_type c = t)) as [<-|Hne]; simpl; lia.
Qed.

Lemma sum_counts_increment (m : gmap pystr nat) (k : pystr) :
  sum_counts (<[k := (default 0 (m !! k) + 1)%nat]> m) = Datatypes.S (sum_counts m).
Proof.
  unfold sum_counts.
  destruct (m !! k) as [n|] eqn:E; simpl.
  - rewrite <- (insert_delete_eq m).
    rewrite map_fold_insert_L; [|intros; lia|apply lookup_delete_eq].
    rewrite (map_fold_delete_L _ _ k n m); [lia|intros; lia|done].
  - rewrite map_fold_insert_L; [lia|intros; lia|done].
Qed.

Lemma sum_counts_count_question_types (history : list turn)
    (m : gmap pystr nat) :
  sum_counts (count_question_types history m)
  = (sum_counts m + length history)%nat.
Proof.
  revert m; induction history as [|c history IH]; intros m; simpl; [lia|].
  rewrite IH, sum_counts_increment. lia.
Qed.

Lemma count_recent_spec `{S : Services} (history : list turn) (w : world) :
  ((count_recent history w).1 <= length history)%nat
  /\ clock_reads (count_recent history w).2 = (clock_reads w + length history)%nat
  /\ conversation_history (count_recent history w).2 = conversation_history w
  /\ session (count_recent history w).2 = session w
  /\ is_initialized (count_recent history w).2 = is_initialized w.
Proof.
  revert w; induction history as [|c history IH]; intros w; simpl.
  - repeat split; lia.
  - specialize (IH (now w).2).
    destruct (count_recent history (now w).2) as [n w2] eqn:E.
    unfold now in *. cbn [fst snd] in *. rewrite E.
    destruct IH as (Hn & Hc & Hh & Hs & Hi). cbn [fst snd clock_reads
      conversation_history session is_initialized] in *.
    repeat split; try done; [destruct (_ <? _)%Z; lia | lia].
Qed.

(** X13: on a bot that has its history [get_statistics] reports the length
    of the history as the total; its histogram gives, for every question type,
    the number of turns of that type, counts nothing else, and its counts add
    up to the total.  The number of recent questions never exceeds the total.
    The history is left as it is; the clock is read once for each turn.  On a
    bot without history, which is what a failed [__init__] leaves,
    [get_statistics] raises the attribute error and changes nothing. *)
Theorem get_statistics_counts `{S : Services} (w : world) :
  (conversation_history w = None -> get_statistics w = (inl attribute_error, w))
  /\ (forall history, conversation_history w = Some history ->
      exists stats w',
        get_statistics w = (inr stats, w')
        /\ total_questions stats = length history
        /\ (forall t : pystr,
             default 0%nat (question_types stats !! t) = turns_of_type t history)
        /\ sum_counts (question_types stats) = total_questions stats
        /\ (forall n, recent_questions stats = Some n ->
              (n <= total_questions stats)%nat)
        /\ (recent_questions stats = None <-> history = [])
        /\ conversation_history w' = Some history
        /\ clock_reads w' = (clock_reads w + length history)%nat).
Proof.
  unfold get_statistics, mbind, M_bind, mret, M_ret, lift, load_history.
  split; [by intros ->|]. intros history Hw. rewrite Hw.
  destruct history as [|c history].
  - eexists _, _. split; [reflexivity|].
    cbn [total_questions question_types recent_questions length].
    split; [done|]. split; [intros t; by rewrite lookup_empty|].
    split; [apply map_fold_empty|]. split; [done|]. split; [done|].
    split; [done | lia].
  - pose proof (count_recent_spec (c :: history) w) as (Hn & Hc & Hh & _).
    destruct (count_recent (c :: history) w) as [n w2].
    eexists _, _. split; [reflexivity|].
    cbn [fst snd total_questions question_types recent_questions] in *.
    rewrite Hw in Hh.
    split; [done|].
    split; [intros t; by rewrite count_question_types_lookup, lookup_empty|].
    split.
    { rewrite sum_counts_count_question_types. unfold sum_counts.
      by rewrite map_fold_empty. }
    split; [by intros ? [= <-]|]. split; [done|].
    split; [done | done].
Qed.

(** ** Topic suggestions and the keyword classifiers *)

Lemma suggest_loop_acc (items : list (pystr * list pystr))
    (question_lower : pystr) (suggestions : list pystr) :
  suggest_loop items question_lower suggestions
  = suggestions
    ++ concat ((fun it => take 2 it.2)
               <$> filter (fun it => str_in it.1 question_lower = true) items).
Proof.
  revert suggestions; induction items as [|[topic related] items IH];
    intros suggestions; cbn [suggest_loop].
  - by rewrite app_nil_r.
  - rewrite filter_cons. cbn [fst snd].
    destruct (str_in topic question_lower) eqn:E.
    + rewrite decide_True by done. rewrite IH. cbn [fmap list_fmap concat snd].
      by rewrite <- app_assoc.
    + rewrite decide_False by done. apply IH.
Qed.

Lemma topic_suggestions_two :
  Forall (fun it : pystr * list pystr => (2 <= length it.2)%nat) topic_suggestions.
Proof. repeat constructor; simpl; lia. Qed.

Lemma matched_topics_two `{U : PyUnicode} (question : pystr) :
  Forall (fun it : pystr * list pystr => (2 <= length it.2)%nat)
    (matched_topics question).
Proof.
  apply Forall_forall. intros it [_ Hin]%list_elem_of_filter.
  pose proof topic_suggestions_two as Hall. rewrite Forall_forall in Hall.
  by apply Hall.
Qed.

Lemma suggest_related_topics_shape `{U : PyUnicode} (question : pystr) :
  suggest_related_topics question
  = match matched_topics question with
    | [] => []
    | [it] => take 2 it.2
    | it1 :: it2 :: _ => take 2 it1.2 ++ take 1 it2.2
    end.
Proof.
  unfold suggest_related_topics. rewrite suggest_loop_acc. cbn [app].
  fold (matched_topics question).
  pose proof (matched_topics_two question) as Hall.
  destruct Hall as [|[t1 r1] l H1 Hall]; [done|].
  destruct Hall as [|[t2 r2] l H2 Hall]; cbn [fmap list_fmap concat fst snd] in *.
  - rewrite app_nil_r.
    destruct r1 as [|a [|b r1]]; simpl in *; try lia. done.
  - destruct r1 as [|a [|b r1]]; simpl in *; try lia.
    destruct r2 as [|c [|d r2]]; simpl in *; try lia. done.
Qed.

Lemma matched_topics_nil `{U : PyUnicode} (question : pystr) :
  matched_topics question = []
  <-> ~ mentions (topic_suggestions.*1) (str_lower question).
Proof.
  unfold matched_topics, mentions. split.
  - intros Hnil (topic & Hin & Hsub).
    apply list_elem_of_fmap in Hin as ([t related] & -> & Hin).
    assert (Hm : (t, related) ∈ filter
      (fun it : pystr * list pystr => str_in it.1 (str_lower question) = true)
      topic_suggestions).
    { apply list_elem_of_filter. split; [by apply str_in_spec | done]. }
    rewrite Hnil in Hm. by apply elem_of_nil in Hm.
  - intros Hno.
    destruct (filter _ topic_suggestions) as [|[t related] l] eqn:E; [done|].
    assert (Hm : (t, related) ∈ filter
      (fun it : pystr * list pystr => str_in it.1 (str_lower question) = true)
      topic_suggestions) by (rewrite E; apply list_elem_of_here).
    apply list_elem_of_filter in Hm as [Hs Hin]. exfalso.
    apply Hno. exists t. split; [|by apply str_in_spec].
    apply list_elem_of_fmap. by exists (t, related).
Qed.

Lemma suggest_related_topics_nil `{U : PyUnicode} (question : pystr) :
  suggest_related_topics question = [] <-> matched_topics question = [].
Proof.
  rewrite suggest_related_topics_shape.
  pose proof (matched_topics_two question) as Hall.
  destruct Hall as [|[t1 r1] l H1 Hall]; [done|].
  cbn [snd] in *. destruct r1 as [|a [|b r1]]; simpl in *; try lia.
  destruct l; done.
Qed.

(** X14: [suggest_related_topics] gives nothing when no topic of its table
    occurs in the lower-cased question, the first two related topics of the
    topic when one occurs, and, when several occur, the first two related
    topics of the first and only the first related topic of the second, in the
    table's order: never more than three suggestions. *)
Theorem suggest_related_topics_spec `{U : PyUnicode} (question : pystr) :
  suggest_related_topics question
  = match matched_topics question with
    | [] => []
    | [it] => take 2 it.2
    | it1 :: it2 :: _ => take 2 it1.2 ++ take 1 it2.2
    end
  /\ (suggest_related_topics question = []
      <-> ~ mentions (topic_suggestions.*1) (str_lower question))
  /\ (suggest_related_topics question <> [] ->
      2 <= length (suggest_related_topics question) <= 3)%nat
  /\ matched_topics question `sublist_of` topic_suggestions.
Proof.
  split; [apply suggest_related_topics_shape|].
  split; [by rewrite suggest_related_topics_nil, matched_topics_nil|].
  split; [|apply sublist_filter].
  rewrite suggest_related_topics_shape.
  pose proof (matched_topics_two question) as Hall.
  destruct Hall as [|[t1 r1] l H1 Hall]; [done|].
  destruct Hall as [|[t2 r2] l H2 Hall]; cbn [snd] in *; intros _.
  - destruct r1 as [|a [|b r1]]; simpl in *; lia.
  - destruct r1 as [|a [|b r1]]; simpl in *; try lia.
    destruct r2 as [|c r2]; simpl in *; lia.
Qed.

Section Classifiers.
Context {U : PyUnicode}.

Lemma categorize_question_safety (question : pystr) :
  categorize_question question = py "safety"
  <-> mentions safety_words (str_lower question).
Proof.
  rewrite <- any_in_spec. unfold categorize_question.
  destruct (any_in safety_words _); [done|].
  repeat destruct (any_in _ _); done.
Qed.

Lemma substring_trans (a b c : pystr) :
  substring a b -> substring b c -> substring a c.
Proof.
  intros (x & y & ->) (x' & y' & ->). exists (x' ++ x), (y ++ y').
  by rewrite <- !app_assoc.
Qed.

(** X16: a query for which [_search_educational_sites] has a built-in entry
    is a chemical-engineering question for [is_cheme_related], and
    [suggest_related_topics] has suggestions for it: the topics of the
    built-in table are terms of [CHEME_TERMS] and topics of the suggestion
    table. *)
Theorem educational_hit_is_cheme (query : pystr) :
  _search_educational_sites query <> [] ->
  is_cheme_related query = true
  /\ suggest_related_topics query <> [].
Proof.
  intros Hne. unfold _search_educational_sites in Hne.
  destruct (filter _ educational_content) as [|[topic content] l] eqn:E; [done|].
  assert (Hin : (topic, content) ∈ filter
    (fun tc : pystr * result => str_in tc.1 (str_lower query) = true)
    educational_content) by (rewrite E; apply list_elem_of_here).
  apply list_elem_of_filter in Hin as [Hs Hin]. cbn [fst] in Hs.
  assert (Ht : topic ∈ CHEME_TERMS /\ topic ∈ topic_suggestions.*1).
  { unfold educational_content in Hin. rewrite !elem_of_cons in Hin.
    rewrite elem_of_nil in Hin.
    destruct Hin as [[= -> _]|[[= -> _]|[[= -> _]|[]]]];
      (split; [unfold CHEME_TERMS; rewrite !elem_of_cons; tauto
              | apply (bool_decide_unpack _); vm_compute; exact I]). }
  destruct Ht as [Ht1 Ht2]. split.
  - apply any_in_spec. exists topic. split; [done | by apply str_in_spec].
  - rewrite suggest_related_topics_nil, matched_topics_nil.
    intros Hno. apply Hno. exists topic. split; [done | by apply str_in_spec].
Qed.

End Classifiers.

(** X15: the two safety detectors agree on a question whose lower-cased
    text contains "safety" or one of the six words their lists share: both
    take it for a safety question.  They disagree in both directions.  A
    question that [categorize_question] files under safety and
    [is_safety_related] does not recognise contains "safe" but not "safety",
    and no other safety word; "Is it safe?" is one.  A question that
    [is_safety_related] recognises and [categorize_question] does not file
    under safety contains no word of [safety_words], and every keyword it
    contains is one that only [SAFETY_KEYWORDS] has; "Tell me about a leak" is
    one, and is filed under general. *)
Theorem safety_detectors :
  (forall (U : PyUnicode) (question : pystr),
     let q := str_lower question in
     (mentions (py "safety" :: shared_safety_words) q ->
      categorize_question question = py "safety"
      /\ is_safety_related question = true)
     /\ (categorize_question question = py "safety" ->
         is_safety_related question = false ->
         substring (py "safe") q /\ ~ substring (py "safety") q
         /\ forall w, w ∈ safety_words -> substring w q -> w = py "safe")
     /\ (is_safety_related question = true ->
         categorize_question question <> py "safety" ->
         ~ mentions safety_words q
         /\ forall w, w ∈ SAFETY_KEYWORDS -> substring w q ->
              w ∉ py "safety" :: shared_safety_words))
  /\ (categorize_question (U := ascii_tables) (py "Is it safe?") = py "safety"
      /\ is_safety_related (U := ascii_tables) (py "Is it safe?") = false)
  /\ (is_safety_related (U := ascii_tables) (py "Tell me about a leak") = true
      /\ categorize_question (U := ascii_tables) (py "Tell me about a leak")
         = py "general").
Proof.
  split; [|split; split; vm_compute; reflexivity].
  intros U question q.
  assert (Hsafety : substring (py "safety") q -> mentions safety_words q).
  { intros Hs. exists (py "safe"). split.
    - unfold safety_words. rewrite !elem_of_cons. tauto.
    - eapply substring_trans; [|exact Hs]. by exists [], (py "ty"). }
  assert (Hshared : forall w, w ∈ shared_safety_words ->
            w ∈ safety_words /\ w ∈ SAFETY_KEYWORDS).
  { intros w Hw. unfold shared_safety_words in Hw.
    rewrite !elem_of_cons, elem_of_nil in Hw.
    unfold safety_words, SAFETY_KEYWORDS. rewrite !elem_of_cons.
    destruct Hw as [->|[->|[->|[->|[->|[->|[]]]]]]]; tauto. }
  assert (Hkey : py "safety" ∈ SAFETY_KEYWORDS).
  { unfold SAFETY_KEYWORDS. rewrite !elem_of_cons. tauto. }
  split; [|split].
  - intros (w & Hw & Hsub). apply elem_of_cons in Hw as [->|Hw].
    + split; [by apply categorize_question_safety, Hsafety|].
      apply any_in_spec. by exists (py "safety").
    + destruct (Hshared w Hw) as [H1 H2]. split.
      * apply categorize_question_safety. by exists w.
      * apply any_in_spec. by exists w.
  - intros Hc Hn. apply categorize_question_safety in Hc.
    apply any_in_false in Hn. fold q in Hc, Hn.
    assert (Hother : forall w, w ∈ safety_words -> substring w q -> w = py "safe").
    { intros w Hw Hsub. unfold safety_words in Hw.
      rewrite !elem_of_cons in Hw.
      destruct Hw as [->|Hw]; [done|]. exfalso. apply Hn. exists w.
      split; [|done]. unfold SAFETY_KEYWORDS. rewrite !elem_of_cons.
      rewrite elem_of_nil in Hw. tauto. }
    destruct Hc as (w & Hw & Hsub).
    pose proof (Hother w Hw Hsub) as ->.
    split; [done|]. split; [|done].
    intros Hs. apply Hn. by exists (py "safety").
  - intros _ Hc.
    assert (Hno : ~ mentions safety_words q).
    { intros H. by apply Hc, categorize_question_safety. }
    split; [done|]. intros w Hw Hsub [->|Hin]%elem_of_cons.
    + by apply Hno, Hsafety.
    + apply Hno. exists w. split; [by apply Hshared | done].
Qed.

Lemma educational_hit_witness :
  is_cheme_related (U := ascii_tables) (py "How does a Distillation column work?")
  = true
  /\ suggest_related_topics (U := ascii_tables)
       (py "How does a Distillation column work?") <> [].
Proof.
  apply (educational_hit_is_cheme (U := ascii_tables)). vm_compute. discriminate.
Defined.

(** ** Page content *)

Lemma sepcat_push_field_length (t : pystr) (ts : list pystr) :
  (length (sepcat (push_field t ts)) <= Datatypes.S (length t) + length (sepcat ts))%nat.
Proof. destruct t; unfold sepcat; simpl; rewrite ?length_app; lia. Qed.

Lemma scan_fields_length (P : char -> bool) (s : pystr) :
  (length (scan_fields P s).1 + length (sepcat (scan_fields P s).2)
   <= length s)%nat.
Proof.
  induction s as [|c s IH]; [simpl; lia|].
  rewrite scan_fields_cons. destruct (P c); cbn [fst snd length].
  - lia.
  - pose proof (sepcat_push_field_length (scan_fields P s).1 (scan_fields P s).2).
    lia.
Qed.

Lemma join_fields_length (P : char -> bool) (s : pystr) :
  (length (join [SPACE] (fields P s)) <= length s)%nat.
Proof.
  pose proof (scan_fields_length P s) as H. unfold fields.
  destruct (scan_fields P s) as [t ts]. cbn [fst snd] in H.
  destruct t as [|c t]; cbn [push_field].
  - destruct ts as [|t' ts]; [simpl; lia|].
    rewrite join_space_cons. unfold sepcat in *. simpl in H.
    rewrite length_app in *. simpl in H. lia.
  - rewrite join_space_cons, length_app. lia.
Qed.

Section PageContentFacts.
Context {U : PyUnicode} {P : Pages}.

Lemma clean_text_length (text : pystr) :
  (length (clean_text (Some text)) <= length text)%nat.
Proof. rewrite clean_text_fields. apply join_fields_length. Qed.

Lemma clean_text_one_line (text : pystr) :
  Forall (fun c => is_space c = true -> c = SPACE) (clean_text (Some text)).
Proof.
  rewrite clean_text_fields.
  eapply Forall_impl; [apply join_fields_chars|].
  intros c [->|Hk] Hs; [done|].
  apply kept_non_space in Hk. unfold non_space in Hk. by rewrite Hs in Hk.
Qed.

(** X17: [extract_content_from_url] returns at most 1003 characters, on one
    line: the only whitespace in its result is the plain space.  A page that
    cannot be fetched gives the empty string.  A page text of at most 1000
    characters comes back cleaned and whole; otherwise the result agrees with
    the cleaned text on its first 1000 characters, and it is longer than 1000
    characters exactly when the cleaned text is, in which case three dots
    follow the first 1000 characters. *)
Theorem extract_content_bounded (url : pystr) :
  let out := extract_content_from_url url in
  (length out <= 1003)%nat
  /\ Forall (fun c => is_space c = true -> c = SPACE) out
  /\ (page_text url = None -> out = [])
  /\ (forall text, page_text url = Some text ->
        take 1000 out = take 1000 (clean_text (Some text))
        /\ ((length text <= 1000)%nat -> out = clean_text (Some text))
        /\ ((1000 < length out)%nat <-> (1000 < length (clean_text (Some text)))%nat)
        /\ ((1000 < length out)%nat -> drop 1000 out = py "...")).
Proof.
  intros out. unfold out, extract_content_from_url.
  destruct (page_text url) as [text|]; cbn zeta.
  2:{ split; [simpl; lia|]. split; [constructor|]. split; [done|]. done. }
  pose proof (clean_text_length text) as Hlen.
  pose proof (clean_text_one_line text) as Hline.
  destruct (1000 <? length (clean_text (Some text)))%nat eqn:E.
  - apply Nat.ltb_lt in E.
    assert (Htake : length (take 1000 (clean_text (Some text))) = 1000%nat)
      by (rewrite length_take; lia).
    assert (Hdots : length (py "...") = 3%nat) by reflexivity.
    split; [rewrite length_app, Htake, Hdots; lia|].
    split.
    { apply Forall_app. split; [by apply Forall_take|].
      repeat constructor; by vm_compute. }
    split; [done|]. intros ? [= <-].
    split; [by rewrite take_app_length' by done|].
    split; [lia|].
    split; [rewrite length_app, Htake, Hdots; lia|].
    intros _. by rewrite drop_app_length' by done.
  - apply Nat.ltb_ge in E.
    split; [lia|]. split; [done|]. split; [done|]. intros ? [= <-].
    split; [done|]. split; [done|]. split; [lia|]. lia.
Qed.

End PageContentFacts.

(** ** Display formatting *)

Lemma split_skip_absent (c0 : char) (sep s : pystr) :
  c0 ∉ s -> split_skip (c0 :: sep) 0 s = [s].
Proof.
  induction s as [|c s IH]; [done|].
  intros [Hne Hs]%not_elem_of_cons. cbn [split_skip startswith].
  rewrite (proj2 (N.eqb_neq c0 c)) by done. cbn [andb].
  by rewrite IH.
Qed.

Lemma split_skip_chars (Q : char -> Prop) (sep : pystr) (skip : nat) (s : pystr) :
  Forall Q s -> Forall (Forall Q) (split_skip sep skip s).
Proof.
  intros H. revert skip. induction H as [|c s Hc Hs IH]; intros skip.
  - repeat constructor.
  - cbn [split_skip]. destruct skip as [|k]; [|apply IH].
    destruct (startswith (c :: s) sep).
    + constructor; [constructor | apply IH].
    + specialize (IH 0%nat). destruct (split_skip sep 0 s) as [|p ps];
        cbn [add_head]; [repeat constructor; done|].
      apply Forall_cons in IH as [Hp Hps]. repeat constructor; done.
Qed.

Lemma split_newline_framed (h : pystr) :
  NEWLINE ∉ h ->
  split_on [NEWLINE] (NEWLINE :: h ++ [NEWLINE]) = [[]; h; []].
Proof.
  intros Hh. unfold split_on. cbn [split_skip startswith length].
  rewrite N.eqb_refl. cbn [andb Nat.sub]. f_equal.
  induction h as [|c h IH]; [done|].
  apply not_elem_of_cons in Hh as [Hne Hh].
  cbn [app split_skip startswith]. rewrite (proj2 (N.eqb_neq NEWLINE c)) by done.
  cbn [andb]. by rewrite IH.
Qed.

Lemma format_section_one_line (section : pystr) :
  NEWLINE ∉ section ->
  format_section section
  = match strip section with
    | [] => None
    | _ =>
        if startswith (strip section) (py "**") && endswith (strip section) (py "**")
        then Some ([NEWLINE]
                   ++ strip (py "### "
                             ++ take (length (strip section) - 4)
                                  (drop 2 (strip section)))
                   ++ [NEWLINE])
        else Some (strip section)
    end.
Proof.
  intros Hn. unfold format_section.
  assert (Hs : NEWLINE ∉ strip section) by (intros H; by apply strip_elem in H).
  pose proof (strip_idem section) as Hidem.
  destruct (strip section) as [|c r] eqn:E; [done|].
  destruct (startswith _ _ && endswith _ _).
  - f_equal.
    change ([NEWLINE] ++ py "### " ++ take (length (c :: r) - 4) (drop 2 (c :: r))
            ++ [NEWLINE])
      with (NEWLINE :: (py "### " ++ take (length (c :: r) - 4) (drop 2 (c :: r)))
            ++ [NEWLINE]).
    rewrite split_newline_framed.
    + cbn [map join]. change (strip []) with (@nil N). by rewrite app_nil_r.
    + intros [H|H]%elem_of_app.
      * revert H. apply (bool_decide_unpack _). by vm_compute.
      * apply Hs. eapply elem_of_sublist; [exact H|].
        etrans; [apply sublist_take | apply sublist_drop].
  - f_equal. unfold split_on. rewrite split_skip_absent by done.
    cbn [map join]. exact Hidem.
Qed.

(** X18: [format_response_for_display] on the simplest answers.  The empty
    answer gives the fixed message, but an answer of whitespace only gives the
    empty string.  An answer on one line comes back trimmed, unless trimmed it
    starts and ends with two asterisks: then the text between them comes back
    as a level-three heading on a line of its own. *)
Theorem format_response_simple_answers :
  format_response_for_display [] = py "No response generated."
  /\ (forall response : pystr,
        response <> [] -> Forall (fun c => is_space c = true) response ->
        format_response_for_display response = [])
  /\ (forall response : pystr,
        response <> [] -> NEWLINE ∉ response ->
        (startswith (strip response) (py "**")
         && endswith (strip response) (py "**")) = false ->
        format_response_for_display response = strip response)
  /\ (forall response : pystr,
        NEWLINE ∉ response ->
        (startswith (strip response) (py "**")
         && endswith (strip response) (py "**")) = true ->
        format_response_for_display response
        = [NEWLINE]
          ++ strip (py "### "
                    ++ take (length (strip response) - 4) (drop 2 (strip response)))
          ++ [NEWLINE]).
Proof.
  split; [done|]. split; [|split].
  - intros response Hne Hws. unfold format_response_for_display.
    destruct response as [|c response]; [done|].
    pose proof (split_skip_chars (fun c => is_space c = true) [NEWLINE; NEWLINE]
                  0 (c :: response) Hws) as Hall.
    fold (split_on [NEWLINE; NEWLINE] (c :: response)) in Hall.
    assert (E : omap format_section (split_on [NEWLINE; NEWLINE] (c :: response)) = []);
      [|by rewrite E].
    induction Hall as [|s ss Hs _ IH]; [done|].
    cbn [omap list_omap]. unfold format_section at 1.
    by rewrite (strip_whitespace s Hs).
  - intros response Hne Hn Hh. unfold format_response_for_display.
    destruct response as [|c response]; [done|].
    unfold split_on. rewrite split_skip_absent by done.
    cbn [omap list_omap]. rewrite format_section_one_line by done.
    rewrite Hh. by destruct (strip (c :: response)).
  - intros response Hn Hh. unfold format_response_for_display.
    destruct response as [|c response]; [by vm_compute in Hh|].
    unfold split_on. rewrite split_skip_absent by done.
    cbn [omap list_omap]. rewrite format_section_one_line by done.
    rewrite Hh. by destruct (strip (c :: response)).
Qed.

Example format_response_heading :
  format_response_for_display (py "  **Overview**  ")
  = [NEWLINE] ++ py "### Overview" ++ [NEWLINE].
Proof. vm_compute. reflexivity. Qed.

(** ** The prompt *)

Lemma endswith_spec (s p : pystr) : endswith s p = true <-> exists t, s = t ++ p.
Proof.
  unfold endswith. rewrite startswith_spec. split.
  - intros [t Ht]. exists (rev t).
    rewrite <- (rev_involutive s), Ht, rev_app_distr.
    by rewrite rev_involutive.
  - intros [t ->]. exists (rev t). by rewrite rev_app_distr.
Qed.

Lemma get_chemE_prompt_parts (question question_type search_context : pystr) :
  get_chemE_prompt question question_type search_context
  = SYSTEM_PROMPT ++ [NEWLINE; NEWLINE]
    ++ match dict_lookup question_type QUESTION_TYPES with
       | Some instructions => instructions ++ [NEWLINE; NEWLINE]
       | None => []
       end
    ++ RESPONSE_FORMAT ++ [NEWLINE; NEWLINE]
    ++ match search_context with
       | [] => []
       | _ => py "**Additional Context from Current Sources:**" ++ [NEWLINE]
              ++ search_context ++ [NEWLINE; NEWLINE]
       end
    ++ py "**Student Question:** " ++ question ++ [NEWLINE; NEWLINE]
    ++ py "**Your Response:**".
Proof.
  unfold get_chemE_prompt.
  destruct (dict_lookup _ _), search_context; by rewrite <- ?app_assoc.
Qed.

(** X19: every prompt [get_chemE_prompt] builds starts with the system
    prompt, holds the response format and the search context, and ends with
    the student's question followed by the response cue.  It holds the
    instruction block of the question type when there is one; for the category
    [categorize_question] gives a question there is one for every category but
    general, and the marker of a rejected question has none. *)
Theorem prompt_for_category `{U : PyUnicode}
    (question question_type search_context : pystr) :
  let prompt := get_chemE_prompt question question_type search_context in
  let category := categorize_question question in
  startswith prompt SYSTEM_PROMPT = true
  /\ endswith prompt
       (py "**Student Question:** " ++ question ++ [NEWLINE; NEWLINE]
        ++ py "**Your Response:**") = true
  /\ substring RESPONSE_FORMAT prompt
  /\ substring search_context prompt
  /\ (forall instructions,
        dict_lookup question_type QUESTION_TYPES = Some instructions ->
        substring instructions prompt)
  /\ (dict_lookup category QUESTION_TYPES = None <-> category = py "general")
  /\ dict_lookup (py "error") QUESTION_TYPES = None.
Proof.
  intros prompt category. unfold prompt. rewrite get_chemE_prompt_parts.
  set (instr := match dict_lookup question_type QUESTION_TYPES with
                | Some instructions => instructions ++ [NEWLINE; NEWLINE]
                | None => []
                end).
  set (context := match search_context with
                  | [] => []
                  | _ => py "**Additional Context from Current Sources:**"
                         ++ [NEWLINE] ++ search_context ++ [NEWLINE; NEWLINE]
                  end).
  set (tail := py "**Student Question:** " ++ question ++ [NEWLINE; NEWLINE]
               ++ py "**Your Response:**").
  split; [apply startswith_spec; eexists; reflexivity|].
  split.
  { apply endswith_spec.
    exists (SYSTEM_PROMPT ++ [NEWLINE; NEWLINE] ++ instr ++ RESPONSE_FORMAT
            ++ [NEWLINE; NEWLINE] ++ context).
    rewrite <- !app_assoc. reflexivity. }
  split.
  { exists (SYSTEM_PROMPT ++ [NEWLINE; NEWLINE] ++ instr),
           ([NEWLINE; NEWLINE] ++ context ++ tail).
    rewrite <- !app_assoc. reflexivity. }
  split.
  { unfold context. destruct search_context as [|c ctx].
    - exists [], (SYSTEM_PROMPT ++ [NEWLINE; NEWLINE] ++ instr ++ RESPONSE_FORMAT
                  ++ [NEWLINE; NEWLINE] ++ [] ++ tail). reflexivity.
    - exists (SYSTEM_PROMPT ++ [NEWLINE; NEWLINE] ++ instr ++ RESPONSE_FORMAT
              ++ [NEWLINE; NEWLINE]
              ++ py "**Additional Context from Current Sources:**" ++ [NEWLINE]),
             ([NEWLINE; NEWLINE] ++ tail).
      rewrite <- !app_assoc. reflexivity. }
  split.
  { intros instructions E. unfold instr. rewrite E.
    exists (SYSTEM_PROMPT ++ [NEWLINE; NEWLINE]),
           ([NEWLINE; NEWLINE] ++ RESPONSE_FORMAT ++ [NEWLINE; NEWLINE]
            ++ context ++ tail).
    rewrite <- !app_assoc. reflexivity. }
  split.
  - unfold category, categorize_question.
    repeat destruct (any_in _ _); split; intros H;
      first [reflexivity | vm_compute in H; discriminate H].
  - vm_compute. reflexivity.
Qed.
(** ** Statistics over the ask pipeline *)

Section StatisticsFacts.
Context {U : PyUnicode} {W : Web} {S : Services}.

Lemma get_statistics_history (w : world) (history : list turn) :
  conversation_history w = Some history ->
  exists stats w',
    get_statistics w = (inr stats, w')
    /\ total_questions stats = length history
    /\ forall t : pystr,
         default 0%nat (question_types stats !! t) = turns_of_type t history.
Proof.
  intros Hh. unfold get_statistics, mbind, M_bind, mret, M_ret, lift, load_history.
  rewrite Hh. destruct history as [|c history].
  - eexists _, _. split; [reflexivity|]. split; [done|].
    intros t. cbn [question_types]. by rewrite lookup_empty.
  - destruct (count_recent (c :: history) w) as [n w2].
    eexists _, _. split; [reflexivity|]. split; [done|].
    intros t. cbn [question_types].
    by rewrite count_question_types_lookup, lookup_empty.
Qed.

Lemma ask_history (question : pystr) (include_web_search : bool) (w : world)
    (history : list turn) :
  conversation_history w = Some history ->
  exists t : turn,
    turn_question_type t = categorize_question question
    /\ conversation_history (ask question include_web_search w).2
       = Some (history ++ (if (validate_input question).1 then [t] else [])).
Proof.
  intros Hh. destruct (validate_input question).1 eqn:Hv.
  - destruct (ask_accepted_run question include_web_search w Hv)
      as (ctx & ai & w0 & w1 & Hctx & Hw0 & Hgen & Hask).
    pose proof (generate_ai_response_frame question (categorize_question question)
                  ctx w0) as Hframe.
    rewrite Hgen in Hframe. cbn [fst snd] in Hframe.
    destruct Hframe as (_ & Hhist & _).
    subst w0. cbn [conversation_history] in Hhist.
    rewrite Hhist, Hh in Hask. rewrite Hask. cbn [snd conversation_history].
    eexists. split; [|reflexivity]. done.
  - exists {| turn_question := question; turn_answer := [];
              turn_question_type := categorize_question question;
              turn_sources := []; turn_timestamp := 0 |}.
    split; [done|]. rewrite app_nil_r. unfold ask.
    destruct (validate_input question) as [v m]. simpl in Hv. by subst v.
Qed.

Lemma ask_without_history (question : pystr) (include_web_search : bool)
    (w : world) :
  conversation_history w = None ->
  conversation_history (ask question include_web_search w).2 = None.
Proof.
  intros Hh. destruct (validate_input question).1 eqn:Hv.
  - destruct (ask_accepted_run question include_web_search w Hv)
      as (ctx & ai & w0 & w1 & Hctx & Hw0 & Hgen & Hask).
    pose proof (generate_ai_response_frame question (categorize_question question)
                  ctx w0) as Hframe.
    rewrite Hgen in Hframe. cbn [fst snd] in Hframe.
    destruct Hframe as (_ & Hhist & _).
    subst w0. cbn [conversation_history] in Hhist.
    rewrite Hhist, Hh in Hask. by rewrite Hask.
  - unfold ask. destruct (validate_input question) as [v m].
    simpl in Hv. by subst v.
Qed.

(** X20: what [get_statistics] reports after [ask] on a bot that has its
    history.  An accepted question raises the total by one and the count of
    its category by one, and leaves the other counts as they were; a rejected
    question changes neither the total nor any count.  After [clear_history],
    on any bot, the count starts again from zero.  On a bot without history
    [get_statistics] still raises after [ask]. *)
Theorem statistics_after_ask (question : pystr) (include_web_search : bool)
    (w : world) :
  let valid := (validate_input question).1 in
  let asked := (ask question include_web_search w).2 in
  (forall history, conversation_history w = Some history ->
   exists before after w1 w2,
     get_statistics w = (inr before, w1)
     /\ get_statistics asked = (inr after, w2)
     /\ total_questions after
        = (total_questions before + (if valid then 1 else 0))%nat
     /\ forall t : pystr,
          default 0%nat (question_types after !! t)
          = (default 0%nat (question_types before !! t)
             + (if valid && bool_decide (t = categorize_question question)
                then 1 else 0))%nat)
  /\ (exists after w2,
        get_statistics (ask question include_web_search (clear_history w)).2
        = (inr after, w2)
        /\ total_questions after = (if valid then 1 else 0)%nat)
  /\ (conversation_history w = None ->
      get_statistics asked = (inl attribute_error, asked)).
Proof.
  intros valid asked. split; [|split].
  - intros history Hh.
    destruct (ask_history question include_web_search w history Hh)
      as (t & Ht & Hh').
    destruct (get_statistics_history w history Hh)
      as (before & w1 & E1 & Htot1 & Hhist1).
    destruct (get_statistics_history _ _ Hh')
      as (after & w2 & E2 & Htot2 & Hhist2).
    exists before, after, w1, w2. fold asked in E2. fold valid in Htot2, Hhist2.
    split; [done|]. split; [done|].
    split; [rewrite Htot1, Htot2, length_app; by destruct valid|].
    intros t0. rewrite Hhist1, Hhist2.
    unfold turns_of_type. rewrite filter_app, length_app.
    destruct valid; cbn [andb]; [|done].
    rewrite filter_cons, filter_nil, Ht.
    case_bool_decide as Hd; subst.
    + by rewrite decide_True.
    + by rewrite decide_False by done.
  - destruct (ask_history question include_web_search (clear_history w) []
                eq_refl) as (t & Ht & Hh').
    destruct (get_statistics_history _ _ Hh') as (after & w2 & E2 & Htot2 & _).
    exists after, w2. split; [done|]. rewrite Htot2. fold valid.
    by destruct valid.
  - intros Hh. pose proof (ask_without_history question include_web_search w Hh)
      as Hh'. fold asked in Hh'.
    unfold get_statistics, mbind, M_bind, load_history. by rewrite Hh'.
Qed.

End StatisticsFacts.
